(** * process_icon.py: a shallow embedding of the macOS icon compositor

    The script is one function, [create_macos_icon], plus a command-line
    entry point.  It is glue over the Pillow imaging library, so the
    development has three layers:

    - [PyFloat]: the two binary64 products the script computes itself
      ([SHAPE_SIZE * 0.22] and [int(SHAPE_SIZE * 0.98)]), on Rocq's
      primitive floats, which are IEEE 754 binary64 like Python's;
    - the Pillow calls the script makes ([Image_open], [Image_new],
      [ImageDraw_rounded_rectangle], [ImageOps_fit], [Image_putalpha],
      [Image_alpha_composite], [Image_save], ...).  Pillow is a third-party
      library, not part of the repository; its functions are written after
      Pillow's own Python layer, with filled shapes as geometric regions.
      The per-pixel numeric kernels of its C core (resampling, Gaussian
      blur, the "over" blend) are an interface, [PixelKernels]: no property
      below depends on which colours they produce.  Which source pixels
      the resampler reads for an output pixel is not left to the
      interface: it follows the bounds Resample.c computes;
    - the script: [create_macos_icon] and [main], in a state-and-exception
      monad over a [World] (files with the paths that name them, disk
      faults, standard output, log of file opens). *)

From Stdlib Require Import ZArith QArith Qround Qfield Lqa String Ascii List Floats Uint63 Lia.
From stdpp Require Import gmap strings pretty.
Import ListNotations.

Set Warnings "-inexact-float".
Local Open Scope string_scope.
Local Open Scope Z_scope.

(** ** Python floats *)

Module PyFloat.

(** [float(z)] for the small integers of the script. *)
Definition of_int (z : Z) : float :=
  if z <? 0 then PrimFloat.opp (PrimFloat.of_uint63 (Uint63.of_Z (- z)))
  else PrimFloat.of_uint63 (Uint63.of_Z z).

(** The exact rational value of a finite float; [None] for inf and nan. *)
Definition value (f : float) : option Q :=
  match Prim2SF f with
  | S754_zero _ => Some 0%Q
  | S754_finite s m e =>
      let mag := if 0 <=? e then inject_Z (Z.shiftl (Zpos m) e)
                 else Qmake (Zpos m) (Z.to_pos (Z.shiftl 1 (- e))) in
      Some (if s then Qopp mag else mag)
  | S754_infinity _ | S754_nan => None
  end.

(** The value handed to library code that computes with it; the script's
    only such float is [radius], which is finite ([radius_value]). *)
Definition to_Q (f : float) : Q :=
  match value f with Some q => q | None => 0%Q end.

(** Truncation toward zero: Python's [int(f)] and C's [(int)f]. *)
Definition trunc (q : Q) : Z :=
  if Qle_bool 0 q then Qfloor q else Qceiling q.

End PyFloat.

(** ** Exceptions and the effect monad *)

Inductive ExcClass :=
  | FileNotFoundError | IsADirectoryError | PermissionError | OSError
  | UnidentifiedImageError | DecompressionBombError
  | ValueError | TypeError | KeyError | ZeroDivisionError | OverflowError.

(** A raised object: an instance of a subclass of [Exception] with its
    [str()], or [SystemExit], which derives from [BaseException] only. *)
Inductive Exc :=
  | Error (cls : ExcClass) (msg : string)
  | SystemExit (code : Z).

(** [isinstance(e, Exception)], the test of [except Exception]. *)
Definition is_Exception (e : Exc) : bool :=
  match e with Error _ _ => true | SystemExit _ => false end.

(** [str(e)], what an f-string prints for [{e}]. *)
Definition str (e : Exc) : string :=
  match e with
  | Error _ msg => msg
  | SystemExit code => pretty code
  end.

Inductive Outcome (A : Type) :=
  | Return (a : A)
  | Raise (e : Exc).
Arguments Return {A} a.
Arguments Raise {A} e.

(** Pure code that may raise. *)
Definition obind {A B} (m : Outcome A) (k : A -> Outcome B) : Outcome B :=
  match m with Return a => k a | Raise e => Raise e end.

(** Pure code raises ordinary exceptions only, never [SystemExit]. *)
Definition ordinary {A} (o : Outcome A) : Prop :=
  forall e, o = Raise e -> is_Exception e = true.

(** ** Images *)

Inductive Mode := ModeL | ModeLA | ModeRGB | ModeRGBA.

(** A pixel value, as [getpixel] returns it: an int for "L", a tuple
    otherwise. *)
Inductive Color :=
  | Lum (v : Z)
  | LumA (v a : Z)
  | Rgb (r g b : Z)
  | Rgba (r g b a : Z).

Record Image := mkImage {
  mode : Mode;
  width : Z;
  height : Z;
  px : Z -> Z -> Color   (* px x y, meaningful for 0 <= x < width, 0 <= y < height *)
}.

Definition size (im : Image) : Z * Z := (width im, height im).

(** The [fill]/[color] argument of [Image.new] and of the draw calls. *)
Inductive PyColor :=
  | CInt (v : Z)
  | CTuple (bands : list Z).

Definition red (c : Color) : Z :=
  match c with Lum v | LumA v _ => v | Rgb r _ _ | Rgba r _ _ _ => r end.
Definition green (c : Color) : Z :=
  match c with Lum v | LumA v _ => v | Rgb _ g _ | Rgba _ g _ _ => g end.
Definition blue (c : Color) : Z :=
  match c with Lum v | LumA v _ => v | Rgb _ _ b | Rgba _ _ b _ => b end.
Definition alpha (c : Color) : Z :=
  match c with Lum _ | Rgb _ _ _ => 255 | LumA _ a | Rgba _ _ _ a => a end.

(** ** The world the script runs in *)

Inductive Format := PNG | JPEG | BMP.

(** What a path leads to, as far as the script can tell by opening it: a
    file that decodes to an image in some format, a file no decoder
    identifies, or a directory.  The bytes of a file are not modelled, so
    nothing here speaks about the bytes an encoder writes. *)
Inductive FileData :=
  | Encoded (fmt : Format) (im : Image)
  | Garbage
  | Directory.

Inductive DiskFault := NoFault | CannotOpen | FailsMidWrite.

Inductive IoEvent :=
  | OpenRead (path : string)
  | OpenWrite (path : string).

(** The file system.  Several paths can name one file ("red.jpg" and
    "./red.jpg", a link and its target, two spellings on a file system
    that ignores case): [resolve] sends a path to the canonical name of
    the file it names, and [store] holds the files by canonical name.
    Looking a path up and writing through a path both go through
    [resolve], so a write through one name of a file shows under all of
    them. *)
Record Files := mkFiles {
  resolve : string -> string;
  store : gmap string FileData
}.

#[global] Instance Files_lookup : Lookup string FileData Files :=
  fun path files => store files !! resolve files path.

#[global] Instance Files_insert : Insert string FileData Files :=
  fun path data files =>
    mkFiles (resolve files) (<[resolve files path := data]> (store files)).

Record World := mkWorld {
  fs : Files;
  disk : string -> DiskFault;   (* how opening a path for writing, and the write, go *)
  stdout : list string;         (* printed lines, oldest first *)
  io_log : list IoEvent         (* files opened, oldest first *)
}.

Definition Py (A : Type) : Type := World -> Outcome A * World.

Definition raise {A} (e : Exc) : Py A := fun w => (Raise e, w).
Definition bind {A B} (m : Py A) (k : A -> Py B) : Py B :=
  fun w => match m w with
           | (Return a, w') => k a w'
           | (Raise e, w') => (Raise e, w')
           end.
Definition lift {A} (o : Outcome A) : Py A := fun w => (o, w).

Declare Scope py_scope.
Delimit Scope py_scope with py.
Notation "x <- m ;; k" := (bind m (fun x => k))
  (at level 100, m at next level, right associativity) : py_scope.
Notation "m ;;; k" := (bind m (fun _ => k))
  (at level 100, right associativity) : py_scope.
Notation "x <~ m ;; k" := (obind m (fun x => k))
  (at level 100, m at next level, right associativity) : py_scope.
Local Open Scope py_scope.

(** [try: body  except Exception as e: handler(e)]. *)
Definition try_except {A} (body : Py A) (handler : Exc -> Py A) : Py A :=
  fun w => match body w with
           | (Raise e, w') => if is_Exception e then handler e w' else (Raise e, w')
           | r => r
           end.

Definition add_line (line : string) (w : World) : World :=
  mkWorld (fs w) (disk w) (stdout w ++ [line]) (io_log w).

(** [print(line)].  Standard output is taken to accept every line: a
    closed or full standard output, which would make [print] itself raise,
    is not modelled. *)
Definition print (line : string) : Py unit :=
  fun w => (Return tt, add_line line w).

Definition sys_exit {A} (code : Z) : Py A := raise (SystemExit code).

Definition log_io (ev : IoEvent) (w : World) : World :=
  mkWorld (fs w) (disk w) (stdout w) (io_log w ++ [ev]).

Definition set_fs (m : Files) (w : World) : World :=
  mkWorld m (disk w) (stdout w) (io_log w).

(** ** String helpers of the Python runtime *)

Definition ascii_upper (c : ascii) : ascii :=
  let n := nat_of_ascii c in
  if ((97 <=? n) && (n <=? 122))%nat then ascii_of_nat (n - 32) else c.

Definition ascii_lower (c : ascii) : ascii :=
  let n := nat_of_ascii c in
  if ((65 <=? n) && (n <=? 90))%nat then ascii_of_nat (n + 32) else c.

Fixpoint map_string (f : ascii -> ascii) (s : string) : string :=
  match s with
  | EmptyString => EmptyString
  | String c s' => String (f c) (map_string f s')
  end.

Definition upper : string -> string := map_string ascii_upper.
Definition lower : string -> string := map_string ascii_lower.

(** [s.rfind(c)]: the index of the last occurrence, -1 when there is none. *)
Fixpoint rfind_from (c : ascii) (s : string) (i last : Z) : Z :=
  match s with
  | EmptyString => last
  | String a s' => rfind_from c s' (i + 1) (if Ascii.eqb a c then i else last)
  end.
Definition rfind (c : ascii) (s : string) : Z := rfind_from c s 0 (-1).

Fixpoint all_dots (s : string) : bool :=
  match s with
  | EmptyString => true
  | String a s' => Ascii.eqb a "." && all_dots s'
  end.

(** [os.path.splitext]: the extension starts at the last dot of the last
    path component, leading dots of that component apart. *)
Definition splitext (p : string) : string * string :=
  let sepIndex := rfind "/" p in
  let dotIndex := rfind "." p in
  let stem := substring (Z.to_nat (sepIndex + 1)) (Z.to_nat (dotIndex - sepIndex - 1)) p in
  if (sepIndex <? dotIndex) && negb (all_dots stem)
  then (substring 0 (Z.to_nat dotIndex) p,
        substring (Z.to_nat dotIndex) (String.length p - Z.to_nat dotIndex) p)
  else (p, "").

Definition apostrophe : ascii := ascii_of_nat 39.
Definition double_quote : ascii := ascii_of_nat 34.
Definition backslash : ascii := ascii_of_nat 92.

Fixpoint contains (c : ascii) (s : string) : bool :=
  match s with
  | EmptyString => false
  | String a s' => Ascii.eqb a c || contains c s'
  end.

Definition hex_digit (n : nat) : ascii :=
  if (n <? 10)%nat then ascii_of_nat (48 + n) else ascii_of_nat (87 + n).

(** One character of a [repr]: the quote in use and the backslash are
    escaped, control characters are written as escapes. *)
Definition repr_char (quote c : ascii) : string :=
  let n := nat_of_ascii c in
  if Ascii.eqb c quote || Ascii.eqb c backslash then String backslash (String c EmptyString)
  else if (n =? 9)%nat then String backslash "t"
  else if (n =? 10)%nat then String backslash "n"
  else if (n =? 13)%nat then String backslash "r"
  else if (n <? 32)%nat || (n =? 127)%nat
       then String backslash
              (String "x" (String (hex_digit (n / 16)) (String (hex_digit (n mod 16)) EmptyString)))
  else String c EmptyString.

Fixpoint repr_body (quote : ascii) (s : string) : string :=
  match s with
  | EmptyString => EmptyString
  | String c s' => repr_char quote c ++ repr_body quote s'
  end.

(** [repr(s)] of a [str], as the messages of [OSError], [KeyError] and
    Pillow's [UnidentifiedImageError] show a path or a key: in apostrophes,
    or in double quotes when [s] holds an apostrophe and no double quote.
    (Strings are byte strings here; bytes above 127 are kept as they
    are.) *)
Definition repr (s : string) : string :=
  let quote := if contains apostrophe s && negb (contains double_quote s)
               then double_quote else apostrophe in
  String quote (repr_body quote s ++ String quote EmptyString).

(** ** The numeric kernels of Pillow's C core

    Left abstract: which colour a resampled, blurred or blended pixel gets.
    [resample box size x y origin rows] is the pixel (x, y) of a source's
    region [box] scaled to [size] (bicubic): a weighted sum of [rows], the
    source pixels the resampler reads for (x, y), row by row, [origin]
    being the place of the first of them in the source;
    [gaussian_blur radius im x y] is the pixel (x, y) of the blurred image;
    [over dst src] is Porter-Duff "over" on two RGBA pixels. *)
Class PixelKernels := {
  resample : Q * Q * Q * Q -> Z * Z -> Z -> Z -> Z * Z -> list (list Color) -> Color;
  gaussian_blur : Z -> Image -> Z -> Z -> Color;
  over : Color -> Color -> Color
}.

(** ** Pillow: creating, opening and converting images *)

Definition mode_of_string (s : string) : option Mode :=
  if String.eqb s "L" then Some ModeL
  else if String.eqb s "LA" then Some ModeLA
  else if String.eqb s "RGB" then Some ModeRGB
  else if String.eqb s "RGBA" then Some ModeRGBA
  else None.

Definition clip8 (v : Z) : Z := Z.max 0 (Z.min 255 v).

(** The ink a colour argument denotes in an image of a given mode. *)
Definition getink (m : Mode) (c : PyColor) : Outcome Color :=
  match m, c with
  | ModeL, CInt v => Return (Lum (clip8 v))
  | ModeL, CTuple [v] => Return (Lum (clip8 v))
  | ModeLA, CInt v => Return (LumA (clip8 v) 255)
  | ModeLA, CTuple [v; a] => Return (LumA (clip8 v) (clip8 a))
  | ModeRGB, CInt v =>
      Return (Rgb (Z.land v 255) (Z.land (Z.shiftr v 8) 255) (Z.land (Z.shiftr v 16) 255))
  | ModeRGB, CTuple [r; g; b] => Return (Rgb (clip8 r) (clip8 g) (clip8 b))
  | ModeRGBA, CInt v =>
      Return (Rgba (Z.land v 255) (Z.land (Z.shiftr v 8) 255)
                   (Z.land (Z.shiftr v 16) 255) (Z.land (Z.shiftr v 24) 255))
  | ModeRGBA, CTuple [r; g; b] => Return (Rgba (clip8 r) (clip8 g) (clip8 b) 255)
  | ModeRGBA, CTuple [r; g; b; a] => Return (Rgba (clip8 r) (clip8 g) (clip8 b) (clip8 a))
  | _, _ => Raise (Error TypeError "color must be int, or tuple of one, three or four elements")
  end.

(** [Image.new(mode, size, color)]. *)
Definition Image_new (mode : string) (size : Z * Z) (color : PyColor) : Outcome Image :=
  let '(w, h) := size in
  if (w <? 0) || (h <? 0) then Raise (Error ValueError "Width and height must be >= 0")
  else match mode_of_string mode with
       | None => Raise (Error ValueError "unrecognized image mode")
       | Some m => (ink <~ getink m color ;; Return (mkImage m w h (fun _ _ => ink)))
       end.

(** [Image.MAX_IMAGE_PIXELS], Pillow's guard against decompression bombs:
    [int(1024 * 1024 * 1024 // 4 // 3)]. *)
Definition MAX_IMAGE_PIXELS : Z := 1024 * 1024 * 1024 / 4 / 3.

(** [Image._decompression_bomb_check(size)]: an image of more than twice
    [MAX_IMAGE_PIXELS] pixels is refused.  (Above [MAX_IMAGE_PIXELS] Pillow
    warns on standard error, which is not modelled.) *)
Definition decompression_bomb_check (size : Z * Z) : Outcome unit :=
  let pixels := Z.max 1 (fst size) * Z.max 1 (snd size) in
  if 2 * MAX_IMAGE_PIXELS <? pixels
  then Raise (Error DecompressionBombError
                ("Image size (" ++ pretty pixels ++ " pixels) exceeds limit of "
                 ++ pretty (2 * MAX_IMAGE_PIXELS)
                 ++ " pixels, could be decompression bomb DOS attack."))
  else Return tt.

(** [Image.open(path)], with the decoding it triggers: the file is opened
    for reading, a decoder is found for it, and the size it announces is
    checked against the pixel limit. *)
Definition Image_open (path : string) : Py Image :=
  fun w =>
    let w' := log_io (OpenRead path) w in
    match fs w !! path with
    | None =>
        (Raise (Error FileNotFoundError
                  ("[Errno 2] No such file or directory: " ++ repr path)), w')
    | Some Directory =>
        (Raise (Error IsADirectoryError
                  ("[Errno 21] Is a directory: " ++ repr path)), w')
    | Some Garbage =>
        (Raise (Error UnidentifiedImageError
                  ("cannot identify image file " ++ repr path)), w')
    | Some (Encoded _ im) =>
        (_ <~ decompression_bomb_check (size im) ;; Return im, w')
    end.

(** ITU-R 601-2 luma, as [convert("L")] computes it. *)
Definition luma (c : Color) : Z :=
  match c with
  | Lum v | LumA v _ => v
  | Rgb r g b | Rgba r g b _ => Z.shiftr (r * 19595 + g * 38470 + b * 7471 + 32768) 16
  end.

Definition convert_color (target : Mode) (c : Color) : Color :=
  match target with
  | ModeL => Lum (luma c)
  | ModeLA => LumA (luma c) (alpha c)
  | ModeRGB => Rgb (red c) (green c) (blue c)
  | ModeRGBA => Rgba (red c) (green c) (blue c) (alpha c)
  end.

(** [im.convert(mode)]. *)
Definition Image_convert (im : Image) (mode : string) : Outcome Image :=
  match mode_of_string mode with
  | None => Raise (Error ValueError "conversion not supported")
  | Some m =>
      Return (mkImage m (width im) (height im)
                (fun x y => convert_color m (px im x y)))
  end.

(** ** Pillow: drawing *)

Definition inside (im : Image) (x y : Z) : bool :=
  (0 <=? x) && (x <? width im) && (0 <=? y) && (y <? height im).

(** Drawing writes [ink] to the pixels of a region that lie in the image. *)
Definition paint (im : Image) (region : Z -> Z -> bool) (ink : Color) : Image :=
  mkImage (mode im) (width im) (height im)
    (fun x y => if region x y && inside im x y then ink else px im x y).

(** A filled rectangle: both corners inclusive, in either order. *)
Definition in_rect (box : Z * Z * Z * Z) (x y : Z) : bool :=
  let '(x0, y0, x1, y1) := box in
  (Z.min x0 x1 <=? x) && (x <=? Z.max x0 x1) &&
  (Z.min y0 y1 <=? y) && (y <=? Z.max y0 y1).

(** The filled ellipse inscribed in a bounding box, as the pixels whose
    centres lie within the ellipse.  This is exact away from the rim only:
    along the rim Pillow's rasteriser walks the outline and paints some
    pixels more than these.  The properties below that speak of single
    pixels are stated for the straight bands of a rounded rectangle, for
    its far corners and its centre, and for what lies outside its bounding
    box, where the rasteriser's choice does not matter. *)
Definition in_ellipse (box : Z * Z * Z * Z) (x y : Z) : bool :=
  let '(x0, y0, x1, y1) := box in
  let w := x1 - x0 in
  let h := y1 - y0 in
  let dx := 2 * x - (x0 + x1) in
  let dy := 2 * y - (y0 + y1) in
  (x0 <=? x) && (x <=? x1) && (y0 <=? y) && (y <=? y1) &&
  (dx * dx * (h * h) + dy * dy * (w * w) <=? w * w * (h * h)).

(** Quadrants by angle, clockwise from 3 o'clock with y pointing down:
    0 is 0..90 degrees (bottom right), 1 is 90..180 (bottom left),
    2 is 180..270 (top left), 3 is 270..360 (top right). *)
Definition in_quadrant (k dx dy : Z) : bool :=
  if k =? 0 then (0 <=? dx) && (0 <=? dy)
  else if k =? 1 then (dx <=? 0) && (0 <=? dy)
  else if k =? 2 then (dx <=? 0) && (dy <=? 0)
  else (0 <=? dx) && (dy <=? 0).

Definition sector_covers (start stop k : Z) : bool :=
  let stop := if stop <=? start then stop + 360 else stop in
  ((start <=? 90 * k) && (90 * k + 90 <=? stop)) ||
  ((start <=? 90 * k + 360) && (90 * k + 450 <=? stop)).

(** A pie slice between two angles that are multiples of 90, the only
    ones [rounded_rectangle] asks for.  The bounding box arrives as
    floats and is cast to int. *)
Definition in_pieslice (box : Q * Q * Q * Q) (start stop : Z) (x y : Z) : bool :=
  let '(qx0, qy0, qx1, qy1) := box in
  let x0 := PyFloat.trunc qx0 in
  let y0 := PyFloat.trunc qy0 in
  let x1 := PyFloat.trunc qx1 in
  let y1 := PyFloat.trunc qy1 in
  let dx := 2 * x - (x0 + x1) in
  let dy := 2 * y - (y0 + y1) in
  in_ellipse (x0, y0, x1, y1) x y &&
  existsb (fun k => sector_covers start stop k && in_quadrant k dx dy) [0; 1; 2; 3].

(** [ImageDraw.Draw(im).rectangle(xy, fill)]. *)
Definition ImageDraw_rectangle (im : Image) (xy : (Z * Z) * (Z * Z)) (fill : PyColor)
  : Outcome Image :=
  let '((x0, y0), (x1, y1)) := xy in
  (ink <~ getink (mode im) fill ;;
   Return (paint im (in_rect (x0, y0, x1, y1)) ink)).

(** [ImageDraw.Draw(im).ellipse(xy, fill)]. *)
Definition ImageDraw_ellipse (im : Image) (xy : (Z * Z) * (Z * Z)) (fill : PyColor)
  : Outcome Image :=
  let '((x0, y0), (x1, y1)) := xy in
  (ink <~ getink (mode im) fill ;;
   Return (paint im (in_ellipse (x0, y0, x1, y1)) ink)).

(** [ImageDraw.Draw(im).rounded_rectangle(xy, radius=radius, fill=fill)]:
    four quarter discs in the corners, joined by a middle band and two
    side bands; an ellipse or a plain rectangle in the degenerate cases. *)
Definition ImageDraw_rounded_rectangle
    (im : Image) (xy : (Z * Z) * (Z * Z)) (radius : Q) (fill : PyColor)
  : Outcome Image :=
  let '((x0, y0), (x1, y1)) := xy in
  if x1 <? x0 then Raise (Error ValueError "x1 must be greater than or equal to x0")
  else if y1 <? y0 then Raise (Error ValueError "y1 must be greater than or equal to y0")
  else
    let d := (radius * 2)%Q in
    let full_x := Qle_bool (inject_Z (x1 - x0 - 1)) d in
    let d := if full_x then inject_Z (x1 - x0) else d in
    let full_y := Qle_bool (inject_Z (y1 - y0 - 1)) d in
    let d := if full_y then inject_Z (y1 - y0) else d in
    if full_x && full_y then ImageDraw_ellipse im xy fill
    else if Qeq_bool d 0 then ImageDraw_rectangle im xy fill
    else
      let r := Qfloor (d / 2) in
      let qx0 := inject_Z x0 in
      let qy0 := inject_Z y0 in
      let qx1 := inject_Z x1 in
      let qy1 := inject_Z y1 in
      let parts : list (Q * Q * Q * Q * Z * Z) :=
        if full_x then
          [ ((qx0, qy0, qx0 + d, qy0 + d)%Q, 180, 360);
            ((qx0, qy1 - d, qx0 + d, qy1)%Q, 0, 180) ]
        else if full_y then
          [ ((qx1 - d, qy0, qx1, qy0 + d)%Q, 270, 90);
            ((qx0, qy0, qx0 + d, qy0 + d)%Q, 90, 270) ]
        else
          [ ((qx0, qy0, qx0 + d, qy0 + d)%Q, 180, 270);
            ((qx1 - d, qy0, qx1, qy0 + d)%Q, 270, 360);
            ((qx1 - d, qy1 - d, qx1, qy1)%Q, 0, 90);
            ((qx0, qy1 - d, qx0 + d, qy1)%Q, 90, 180) ] in
      (fill_ink <~ getink (mode im) fill ;;
       let im := fold_left
                   (fun acc part =>
                      let '(box, start, stop) := part in
                      paint acc (in_pieslice box start stop) fill_ink)
                   parts im in
       let im :=
         if full_x then paint im (in_rect (x0, y0 + r + 1, x1, y1 - r - 1)) fill_ink
         else if x0 + r + 1 <? x1 - r - 1
              then paint im (in_rect (x0 + r + 1, y0, x1 - r - 1, y1)) fill_ink
              else im in
       let im :=
         if negb full_x && negb full_y then
           let im := paint im (in_rect (x0, y0 + r + 1, x0 + r, y1 - r - 1)) fill_ink in
           paint im (in_rect (x1 - r, y0 + r + 1, x1, y1 - r - 1)) fill_ink
         else im in
       Return im).

(** ** Pillow: resizing, alpha, filtering, compositing *)

Definition Qlt_bool (a b : Q) : bool := negb (Qle_bool b a).

(** The crop box of [ImageOps.fit(image, size, bleed=bleed,
    centering=centering)], in source pixels: (left, top, right, bottom).
    All quantities are floats in Pillow; for image sizes below 2^53 the ones
    that matter here are integers or half-integers, which binary64 holds
    exactly, so they are computed in [Q]. *)
Definition fit_box (image_size size : Z * Z) (bleed : Q) (centering : Q * Q)
  : Outcome (Q * Q * Q * Q) :=
  let cx := if Qle_bool 0 (fst centering) && Qle_bool (fst centering) 1
            then fst centering else (1 # 2)%Q in
  let cy := if Qle_bool 0 (snd centering) && Qle_bool (snd centering) 1
            then snd centering else (1 # 2)%Q in
  let bleed := if Qle_bool 0 bleed && Qlt_bool bleed (1 # 2) then bleed else 0%Q in
  let bleed_x := (bleed * inject_Z (fst image_size))%Q in
  let bleed_y := (bleed * inject_Z (snd image_size))%Q in
  let live_w := (inject_Z (fst image_size) - bleed_x * 2)%Q in
  let live_h := (inject_Z (snd image_size) - bleed_y * 2)%Q in
  if Qeq_bool live_h 0 then Raise (Error ZeroDivisionError "float division by zero")
  else if snd size =? 0 then Raise (Error ZeroDivisionError "division by zero")
  else
    let live_size_ratio := (live_w / live_h)%Q in
    let output_ratio := (inject_Z (fst size) / inject_Z (snd size))%Q in
    crop <~ (if Qeq_bool live_size_ratio output_ratio then Return (live_w, live_h)
             else if Qle_bool output_ratio live_size_ratio
                  then Return ((output_ratio * live_h)%Q, live_h)
                  else if Qeq_bool output_ratio 0
                       then Raise (Error ZeroDivisionError "float division by zero")
                       else Return (live_w, (live_w / output_ratio)%Q)) ;;
    let '(crop_width, crop_height) := crop in
    let crop_left := (bleed_x + (live_w - crop_width) * cx)%Q in
    let crop_top := (bleed_y + (live_h - crop_height) * cy)%Q in
    Return (crop_left, crop_top, (crop_left + crop_width)%Q, (crop_top + crop_height)%Q).

Definition box_is_whole (box : Q * Q * Q * Q) (im : Image) : bool :=
  let '(l, t, r, b) := box in
  Qeq_bool l 0 && Qeq_bool t 0 &&
  Qeq_bool r (inject_Z (width im)) && Qeq_bool b (inject_Z (height im)).

(** The bicubic filter of Resample.c reaches two pixels from its centre. *)
Definition BICUBIC_SUPPORT : Q := 2.

(** [precompute_coeffs] of Resample.c, the bounds it stores: the source
    pixels [xmin .. xmax - 1] that weigh on output pixel [xx] along one
    axis, when the span from [in0] to [in1] of a source of [inSize] pixels
    is scaled to [outSize] pixels.  The C code computes them in binary64;
    here they are computed in [Q]. *)
Definition resample_bounds (inSize : Z) (in0 in1 : Q) (outSize : Z) (xx : Z) : Z * Z :=
  let scale := ((in1 - in0) / inject_Z outSize)%Q in
  let filterscale := if Qlt_bool scale 1 then 1%Q else scale in
  let support := (BICUBIC_SUPPORT * filterscale)%Q in
  let center := (in0 + (inject_Z xx + (1 # 2)) * scale)%Q in
  let xmin := Z.max 0 (PyFloat.trunc (center - support + (1 # 2))) in
  let xmax := Z.min inSize (PyFloat.trunc (center + support + (1 # 2))) in
  (xmin, xmax).

(** [need_horizontal] and [need_vertical] of [ImagingResampleInner]: a
    pass is skipped along an axis that keeps its size and is not cut. *)
Definition need_pass (inSize : Z) (in0 in1 : Q) (outSize : Z) : bool :=
  negb (outSize =? inSize) || negb (Qeq_bool in0 0)
  || negb (Qeq_bool in1 (inject_Z outSize)).

Definition axis_window (inSize : Z) (in0 in1 : Q) (outSize : Z) (xx : Z) : Z * Z :=
  if need_pass inSize in0 in1 outSize then resample_bounds inSize in0 in1 outSize xx
  else (xx, xx + 1).

(** The test of [_resize] in _imaging.c for a box that starts on whole
    pixels and has the size asked for: such a box is cropped, not
    resampled. *)
Definition is_plain_crop (box : Q * Q * Q * Q) (size : Z * Z) : bool :=
  let '(l, t, r, b) := box in
  Qeq_bool (l - inject_Z (PyFloat.trunc l)) 0 && Qeq_bool (r - l) (inject_Z (fst size)) &&
  Qeq_bool (t - inject_Z (PyFloat.trunc t)) 0 && Qeq_bool (b - t) (inject_Z (snd size)).

(** The source pixels read for output pixel (x, y): the rectangle from
    its first pixel (xmin, ymin) to (xmax, ymax), which is just outside
    it.  The two passes of the resampler read the product of the bounds of
    the two axes; a plain crop reads one pixel. *)
Definition resample_window (im : Image) (box : Q * Q * Q * Q) (size : Z * Z) (x y : Z)
  : (Z * Z) * (Z * Z) :=
  let '(l, t, r, b) := box in
  if is_plain_crop box size
  then ((x + PyFloat.trunc l, y + PyFloat.trunc t),
        (x + PyFloat.trunc l + 1, y + PyFloat.trunc t + 1))
  else
    let xs := axis_window (width im) l r (fst size) x in
    let ys := axis_window (height im) t b (snd size) y in
    ((fst xs, fst ys), (snd xs, snd ys)).

(** The pixels of a window, row by row. *)
Definition pixels_in (im : Image) (window : (Z * Z) * (Z * Z)) : list (list Color) :=
  let '((xmin, ymin), (xmax, ymax)) := window in
  map (fun v => map (fun u => px im u v) (seqZ xmin (xmax - xmin)))
    (seqZ ymin (ymax - ymin)).

(** [im.resize(size, BICUBIC, box=box)].  An image with an alpha band is
    resampled with its colours premultiplied and converted back after,
    pixel by pixel; that is part of what [resample] stands for.  The box
    reaches the C code as binary32 numbers; its coordinates are whole or
    half numbers here, which binary32 holds exactly below 2^23, and they
    are taken as they are. *)
Definition Image_resize {K : PixelKernels} (im : Image) (size : Z * Z) (box : Q * Q * Q * Q)
  : Outcome Image :=
  let '(l, t, r, b) := box in
  if (fst size =? width im) && (snd size =? height im) && box_is_whole box im
  then Return im
  else if (fst size <? 1) || (snd size <? 1)
  then Raise (Error ValueError "height and width must be > 0")
  else if Qlt_bool l 0 || Qlt_bool t 0
  then Raise (Error ValueError "box offset can't be negative")
  else if Qlt_bool (inject_Z (width im)) r || Qlt_bool (inject_Z (height im)) b
  then Raise (Error ValueError "box can't exceed original image size")
  else if Qlt_bool (r - l) 0 || Qlt_bool (b - t) 0
  then Raise (Error ValueError "box can't be empty")
  else Return (mkImage (mode im) (fst size) (snd size)
                 (fun x y =>
                    let window := resample_window im box size x y in
                    resample box size x y (fst window) (pixels_in im window))).


(** [ImageOps.fit(image, size, centering=centering)], with the default
    bicubic method and bleed 0. *)
Definition ImageOps_fit {K : PixelKernels} (image : Image) (size : Z * Z) (centering : Q * Q)
  : Outcome Image :=
  (crop <~ fit_box (width image, height image) size 0 centering ;;
   Image_resize image size crop).

(** The value of a pixel of an "L" image. *)
Definition gray (c : Color) : Z := red c.

Definition set_alpha (c : Color) (v : Z) : Color :=
  match c with
  | Lum l | LumA l _ => LumA l v
  | Rgb r g b | Rgba r g b _ => Rgba r g b v
  end.

Definition with_alpha (m : Mode) : Mode :=
  match m with
  | ModeL | ModeLA => ModeLA
  | ModeRGB | ModeRGBA => ModeRGBA
  end.

(** [self.putalpha(alpha)] for an image [alpha]: the alpha band of [self]
    (added when [self] has none) becomes the "L" image [alpha]. *)
Definition Image_putalpha (self alpha_layer : Image) : Outcome Image :=
  match mode alpha_layer with
  | ModeL =>
      if (width alpha_layer =? width self) && (height alpha_layer =? height self)
      then Return (mkImage (with_alpha (mode self)) (width self) (height self)
                     (fun x y => set_alpha (px self x y) (gray (px alpha_layer x y))))
      else Raise (Error ValueError "images do not match")
  | _ => Raise (Error ValueError "illegal image mode")
  end.

(** [im.filter(ImageFilter.GaussianBlur(radius=radius))]: a new image of
    the same mode and size. *)
Definition Image_filter_GaussianBlur {K : PixelKernels} (im : Image) (radius : Z) : Image :=
  if radius =? 0 then im
  else mkImage (mode im) (width im) (height im) (gaussian_blur radius im).

(** [self.alpha_composite(im, dest)]: [im] is blended over the region of
    [self] whose top left corner is [dest]; the rest of [self] stays. *)
Definition Image_alpha_composite {K : PixelKernels} (self im : Image) (dest : Z * Z)
  : Outcome Image :=
  let '(dx, dy) := dest in
  match mode self, mode im with
  | ModeRGBA, ModeRGBA =>
      Return (mkImage (mode self) (width self) (height self)
                (fun x y =>
                   if (dx <=? x) && (x <? dx + width im) &&
                      (dy <=? y) && (y <? dy + height im)
                   then over (px self x y) (px im (x - dx) (y - dy))
                   else px self x y))
  | _, _ => Raise (Error ValueError "image has wrong mode")
  end.


(** ** Pillow: saving *)

Definition EXTENSION (ext : string) : option string :=
  if String.eqb ext ".png" then Some "PNG"
  else if String.eqb ext ".jpg" || String.eqb ext ".jpeg" || String.eqb ext ".jpe"
          || String.eqb ext ".jfif" then Some "JPEG"
  else if String.eqb ext ".bmp" then Some "BMP"
  else None.

Definition SAVE (format : string) : option Format :=
  if String.eqb format "PNG" then Some PNG
  else if String.eqb format "JPEG" then Some JPEG
  else if String.eqb format "BMP" then Some BMP
  else None.

(** What a format's writer does with an image: JPEG has no alpha, BMP no
    grey with alpha. *)
Definition encode (fmt : Format) (im : Image) : Outcome FileData :=
  match fmt, mode im with
  | PNG, _ => Return (Encoded PNG im)
  | JPEG, (ModeL | ModeRGB) => Return (Encoded JPEG im)
  | JPEG, ModeLA => Raise (Error OSError "cannot write mode LA as JPEG")
  | JPEG, ModeRGBA => Raise (Error OSError "cannot write mode RGBA as JPEG")
  | BMP, ModeLA => Raise (Error OSError "cannot write mode LA as BMP")
  | BMP, _ => Return (Encoded BMP im)
  end.

(** [self.save(fp, format)].  The format is the argument when one is given
    and the extension's otherwise; the file is opened for writing (and so
    emptied) before the writer runs; when the writer fails, a file that
    [save] created is removed and one that existed stays broken.  Whether
    the path can be opened for writing at all is the disk's answer
    ([CannotOpen] stands for every refusal, reported as the commonest one,
    a permission error). *)
Definition Image_save (self : Image) (fp : string) (format : option string) : Py unit :=
  fun w =>
    let ext := lower (snd (splitext fp)) in
    let given := match format with Some f => f | None => "" end in
    let name := if String.eqb given ""
                then match EXTENSION ext with
                     | Some f => Return f
                     | None => Raise (Error ValueError ("unknown file extension: " ++ ext))
                     end
                else Return given in
    match name with
    | Raise e => (Raise e, w)
    | Return f =>
        match SAVE (upper f) with
        | None => (Raise (Error KeyError (repr (upper f))), w)
        | Some fmt =>
            let created := match fs w !! fp with None => true | Some _ => false end in
            let w1 := log_io (OpenWrite fp) w in
            match disk w fp with
            | CannotOpen =>
                (Raise (Error PermissionError
                          ("[Errno 13] Permission denied: " ++ repr fp)), w1)
            | fault =>
                let written :=
                  match fault with
                  | FailsMidWrite =>
                      Raise (Error OSError "[Errno 28] No space left on device")
                  | _ => encode fmt self
                  end in
                match written with
                | Return data => (Return tt, set_fs (<[fp := data]> (fs w)) w1)
                | Raise e =>
                    (Raise e,
                     set_fs (if created then fs w else <[fp := Garbage]> (fs w)) w1)
                end
            end
        end
    end.

(** ** process_icon.py *)

(** [int(f)] of a float. *)
Definition py_int (f : float) : Outcome Z :=
  match PyFloat.value f with
  | Some q => Return (PyFloat.trunc q)
  | None =>
      if PrimFloat.is_nan f
      then Raise (Error ValueError "cannot convert float NaN to integer")
      else Raise (Error OverflowError "cannot convert float infinity to integer")
  end.

Definition CANVAS_SIZE : Z := 1024.
Definition SHAPE_SIZE : Z := 824.
Definition PADDING : Z := (CANVAS_SIZE - SHAPE_SIZE) / 2.

(** [radius = SHAPE_SIZE * 0.22]. *)
Definition radius : float := (PyFloat.of_int SHAPE_SIZE * 0.22)%float.

(** Lines 19-24: the squircle mask of the content. *)
Definition make_mask : Outcome Image :=
  mask <~ Image_new "L" (SHAPE_SIZE, SHAPE_SIZE) (CInt 0) ;;
  ImageDraw_rounded_rectangle mask ((0, 0), (SHAPE_SIZE, SHAPE_SIZE))
    (PyFloat.to_Q radius) (CInt 255).

(** Line 27: the source fitted to the shape size. *)
Definition fit_content {K : PixelKernels} (img : Image) : Outcome Image :=
  ImageOps_fit img (SHAPE_SIZE, SHAPE_SIZE) (1 # 2, 1 # 2)%Q.

(** Lines 27-28: fitted, then masked. *)
Definition make_content {K : PixelKernels} (img mask : Image) : Outcome Image :=
  content <~ fit_content img ;;
  Image_putalpha content mask.

(** Line 32: [shadow_size = int(SHAPE_SIZE * 0.98)]. *)
Definition shadow_size : Outcome Z :=
  py_int (PyFloat.of_int SHAPE_SIZE * 0.98)%float.

Definition shadow_offset_y : Z := 10.

(** Lines 38-41. *)
Definition shadow_rect : (Z * Z) * (Z * Z) :=
  ((PADDING, PADDING + shadow_offset_y),
   (PADDING + SHAPE_SIZE, PADDING + SHAPE_SIZE + shadow_offset_y)).

(** Lines 32-45: the shadow layer before the blur.  [shadow_size] is
    bound and not used again, as in the source. *)
Definition draw_shadow : Outcome Image :=
  shadow_size <~ shadow_size ;;
  shadow <~ Image_new "RGBA" (CANVAS_SIZE, CANVAS_SIZE) (CTuple [0; 0; 0; 0]) ;;
  ImageDraw_rounded_rectangle shadow shadow_rect (PyFloat.to_Q radius)
    (CTuple [0; 0; 0; 160]).

(** Lines 32-48. *)
Definition make_shadow {K : PixelKernels} : Outcome Image :=
  shadow <~ draw_shadow ;;
  Return (Image_filter_GaussianBlur shadow 15).

(** Lines 51-53. *)
Definition composite {K : PixelKernels} (shadow content : Image) : Outcome Image :=
  final_canvas <~ Image_new "RGBA" (CANVAS_SIZE, CANVAS_SIZE) (CTuple [0; 0; 0; 0]) ;;
  final_canvas <~ Image_alpha_composite final_canvas shadow (0, 0) ;;
  Image_alpha_composite final_canvas content (PADDING, PADDING).

(** Lines 16-53: everything before the save. *)
Definition build_canvas {K : PixelKernels} (input_path : string) : Py Image :=
  img <- Image_open input_path ;;
  img <- lift (Image_convert img "RGBA") ;;
  mask <- lift make_mask ;;
  content <- lift (make_content img mask) ;;
  shadow <- lift make_shadow ;;
  lift (composite shadow content).

(** The body of the [try]. *)
Definition icon_body {K : PixelKernels} (input_path output_path : string) : Py unit :=
  final_canvas <- build_canvas input_path ;;
  Image_save final_canvas output_path (Some "PNG") ;;;
  print ("Created macOS-compliant icon at " ++ output_path).

Definition create_macos_icon {K : PixelKernels} (input_path output_path : string) : Py unit :=
  try_except (icon_body input_path output_path)
    (fun e => print ("Error processing image: " ++ str e) ;;; sys_exit 1).

Definition usage : string := "Usage: python3 process_icon.py <input> <output>".

(** The [__main__] block; [argv] is [sys.argv]. *)
Definition main {K : PixelKernels} (argv : list string) : Py unit :=
  if (Z.of_nat (List.length argv) <? 3)
  then print usage ;;; sys_exit 1
  else create_macos_icon (nth 1 argv "") (nth 2 argv "").

(** The interpreter around the script: the exit status is 0 when the
    script runs to its end, the argument of [sys.exit] when it is called,
    and 1 for an exception nobody caught. *)
Definition run {K : PixelKernels} (argv : list string) (w : World) : Z * World :=
  match main argv w with
  | (Return _, w') => (0, w')
  | (Raise (SystemExit code), w') => (code, w')
  | (Raise (Error _ _), w') => (1, w')
  end.

(** The union of the seven shapes [ImageDraw_rounded_rectangle] paints in
    its general case: four quarter discs, the middle band, the two side
    bands. *)
Definition rounded_region (x0 y0 x1 y1 : Z) (radius : Q) (x y : Z) : bool :=
  let d := (radius * 2)%Q in
  let r := Qfloor (d / 2) in
  in_pieslice (inject_Z x0, inject_Z y0, inject_Z x0 + d, inject_Z y0 + d)%Q 180 270 x y
  || in_pieslice (inject_Z x1 - d, inject_Z y0, inject_Z x1, inject_Z y0 + d)%Q 270 360 x y
  || in_pieslice (inject_Z x1 - d, inject_Z y1 - d, inject_Z x1, inject_Z y1)%Q 0 90 x y
  || in_pieslice (inject_Z x0, inject_Z y1 - d, inject_Z x0 + d, inject_Z y1)%Q 90 180 x y
  || in_rect (x0 + r + 1, y0, x1 - r - 1, y1) x y
  || in_rect (x0, y0 + r + 1, x0 + r, y1 - r - 1) x y
  || in_rect (x1 - r, y0 + r + 1, x1, y1 - r - 1) x y.

(** Whether a canvas pixel lies in the square the content is composited
    onto (line 53). *)
Definition in_content_square (x y : Z) : bool :=
  (PADDING <=? x) && (x <? PADDING + SHAPE_SIZE) &&
  (PADDING <=? y) && (y <? PADDING + SHAPE_SIZE).

(** ** Concrete kernels and worlds, for running the model *)

Definition middle {A} (l : list A) (d : A) : A := nth (Nat.div2 (List.length l)) l d.

(** The pixel in the middle of the window, no blur, and "source wins where
    it is not transparent": crude stand-ins for the C kernels. *)
Definition demo_kernels : PixelKernels := {|
  resample := fun _ _ _ _ _ rows => middle (middle rows []) (Lum 0);
  gaussian_blur := fun _ im x y => px im x y;
  over := fun dst src => if alpha src =? 0 then dst else src
|}.

(** A 500x300 opaque red JPEG. *)
Definition red_jpeg : FileData :=
  Encoded JPEG (mkImage ModeRGB 500 300 (fun _ _ => Rgb 255 0 0)).

(** Paths as a shell in the directory of the pictures sees them: a
    leading "./" changes nothing. *)
Definition demo_resolve (path : string) : string :=
  match path with
  | String "." (String "/" rest) => rest
  | _ => path
  end.

Definition demo_world : World :=
  mkWorld
    (mkFiles demo_resolve
       (<["photos" := Directory]> (<["notes.txt" := Garbage]> (<["red.jpg" := red_jpeg]> ∅))))
    (fun p => if String.eqb p "/readonly/icon.png" then CannotOpen
              else if String.eqb p "/full/icon.png" then FailsMidWrite
              else NoFault)
    [] [].

(** The red source once decoded and converted to RGBA. *)
Definition red_source : Image := mkImage ModeRGBA 500 300 (fun _ _ => Rgba 255 0 0 255).

(** A second picture, taller than wide, with some transparency. *)
Definition blue_png : FileData :=
  Encoded PNG (mkImage ModeRGBA 300 500 (fun x _ => Rgba 0 0 255 (x mod 256))).

(** A world holding both pictures and an icon made earlier. *)
Definition gallery_world : World :=
  mkWorld (<["old.png" := red_jpeg]> (<["blue.png" := blue_png]> (fs demo_world)))
    (disk demo_world) [] [].



(** * Properties *)

(** ** Reasoning about the monads *)

Lemma obind_Return {A B} (m : Outcome A) (k : A -> Outcome B) (b : B) :
  obind m k = Return b -> exists a, m = Return a /\ k a = Return b.
Proof. destruct m as [a|e]; simpl; [eauto | discriminate]. Qed.

Lemma obind_Raise {A B} (m : Outcome A) (k : A -> Outcome B) (e : Exc) :
  obind m k = Raise e -> m = Raise e \/ exists a, m = Return a /\ k a = Raise e.
Proof. destruct m as [a|e']; simpl; [eauto | intros [= ->]; auto]. Qed.

Lemma bind_Return {A B} (m : Py A) (k : A -> Py B) (b : B) (w w' : World) :
  bind m k w = (Return b, w') ->
  exists a w1, m w = (Return a, w1) /\ k a w1 = (Return b, w').
Proof.
  unfold bind. destruct (m w) as [[a|e] w1]; [eauto | discriminate].
Qed.

Lemma bind_Raise {A B} (m : Py A) (k : A -> Py B) (e : Exc) (w w' : World) :
  bind m k w = (Raise e, w') ->
  m w = (Raise e, w') \/ exists a w1, m w = (Return a, w1) /\ k a w1 = (Raise e, w').
Proof.
  unfold bind. destruct (m w) as [[a|e'] w1]; [eauto 6 | intros [= -> ->]; auto].
Qed.

Lemma lift_inv {A} (o o' : Outcome A) (w w' : World) :
  lift o w = (o', w') -> o = o' /\ w = w'.
Proof. unfold lift. intros [= -> ->]. auto. Qed.

Lemma ordinary_Return {A} (a : A) : ordinary (Return a).
Proof. intros e; discriminate. Qed.

Lemma ordinary_Error {A} cls msg : ordinary (@Raise A (Error cls msg)).
Proof. intros e [= <-]. reflexivity. Qed.

Lemma ordinary_obind {A B} (m : Outcome A) (k : A -> Outcome B) :
  ordinary m -> (forall a, ordinary (k a)) -> ordinary (obind m k).
Proof.
  intros Hm Hk e He. apply obind_Raise in He as [He | (a & _ & He)].
  - exact (Hm e He).
  - exact (Hk a e He).
Qed.

(** ** Paths and files *)

(** What was written through a path is what the path holds. *)
Lemma files_lookup_insert_eq (files : Files) (path : string) (data : FileData) :
  <[path := data]> files !! path = Some data.
Proof.
  unfold lookup, insert, Files_lookup, Files_insert. cbn [store resolve].
  apply lookup_insert_eq.
Qed.

(** A write through a path leaves the paths that name other files alone. *)
Lemma files_lookup_insert_ne (files : Files) (path other : string) (data : FileData) :
  resolve files other <> resolve files path ->
  <[path := data]> files !! other = files !! other.
Proof.
  intros Hne. unfold lookup, insert, Files_lookup, Files_insert. cbn [store resolve].
  apply lookup_insert_ne. congruence.
Qed.

(** Writing a file does not change which file a path names. *)
Lemma files_resolve_insert (files : Files) (path : string) (data : FileData) :
  resolve (<[path := data]> files) = resolve files.
Proof. reflexivity. Qed.

Create HintDb ordinary.
#[local] Hint Resolve ordinary_Return ordinary_Error ordinary_obind : ordinary.

(** ** Shapes of the images Pillow returns *)

Lemma getink_ordinary (m : Mode) (c : PyColor) : ordinary (getink m c).
Proof.
  unfold getink. repeat case_match; auto with ordinary.
Qed.
#[local] Hint Resolve getink_ordinary : ordinary.

Lemma Image_new_shape (m : string) (sz : Z * Z) (c : PyColor) (im : Image) :
  Image_new m sz c = Return im ->
  mode_of_string m = Some (mode im) /\ width im = fst sz /\ height im = snd sz.
Proof.
  unfold Image_new. destruct sz as [w h].
  destruct ((w <? 0) || (h <? 0)); [discriminate |].
  destruct (mode_of_string m) as [md|]; [| discriminate].
  intros H. apply obind_Return in H as (ink & _ & [= <-]). auto.
Qed.

Lemma Image_new_ordinary (m : string) (sz : Z * Z) (c : PyColor) :
  ordinary (Image_new m sz c).
Proof.
  unfold Image_new. destruct sz as [w h].
  repeat case_match; auto with ordinary.
Qed.

Lemma Image_alpha_composite_shape {K : PixelKernels} (self im out : Image) (dest : Z * Z) :
  Image_alpha_composite self im dest = Return out ->
  mode out = mode self /\ width out = width self /\ height out = height self
  /\ mode self = ModeRGBA /\ mode im = ModeRGBA.
Proof.
  unfold Image_alpha_composite. destruct dest as [dx dy].
  destruct (mode self) eqn:Hs; try discriminate.
  destruct (mode im) eqn:Hi; try discriminate.
  intros [= <-]. simpl. auto.
Qed.

Lemma Image_alpha_composite_ordinary {K : PixelKernels} (self im : Image) (dest : Z * Z) :
  ordinary (Image_alpha_composite self im dest).
Proof.
  unfold Image_alpha_composite. destruct dest. repeat case_match; auto with ordinary.
Qed.

Lemma composite_shape {K : PixelKernels} (shadow content canvas : Image) :
  composite shadow content = Return canvas ->
  mode canvas = ModeRGBA /\ width canvas = CANVAS_SIZE /\ height canvas = CANVAS_SIZE.
Proof.
  unfold composite. intros H.
  apply obind_Return in H as (c0 & H0 & H).
  apply obind_Return in H as (c1 & H1 & H2).
  apply Image_new_shape in H0 as (_ & Hw & Hh). simpl in Hw, Hh.
  apply Image_alpha_composite_shape in H1 as (Hm1 & Hw1 & Hh1 & Hrgba & _).
  apply Image_alpha_composite_shape in H2 as (Hm2 & Hw2 & Hh2 & _ & _).
  repeat split; congruence.
Qed.

(** ** Which exceptions the stages can raise *)

Lemma ImageDraw_rectangle_ordinary im xy fill : ordinary (ImageDraw_rectangle im xy fill).
Proof.
  unfold ImageDraw_rectangle. destruct xy as [[x0 y0] [x1 y1]].
  auto with ordinary.
Qed.

Lemma ImageDraw_ellipse_ordinary im xy fill : ordinary (ImageDraw_ellipse im xy fill).
Proof.
  unfold ImageDraw_ellipse. destruct xy as [[x0 y0] [x1 y1]].
  auto with ordinary.
Qed.

Lemma ImageDraw_rounded_rectangle_ordinary im xy r fill :
  ordinary (ImageDraw_rounded_rectangle im xy r fill).
Proof.
  unfold ImageDraw_rounded_rectangle. destruct xy as [[x0 y0] [x1 y1]].
  destruct (x1 <? x0); [auto with ordinary |].
  destruct (y1 <? y0); [auto with ordinary |].
  cbv zeta.
  destruct (_ && _); [apply ImageDraw_ellipse_ordinary |].
  destruct (Qeq_bool _ _); [apply ImageDraw_rectangle_ordinary |].
  auto with ordinary.
Qed.

Lemma py_int_ordinary f : ordinary (py_int f).
Proof.
  unfold py_int. destruct (PyFloat.value f); [| destruct (PrimFloat.is_nan f)];
    auto with ordinary.
Qed.

Lemma Image_convert_ordinary im m : ordinary (Image_convert im m).
Proof. unfold Image_convert. destruct (mode_of_string m); auto with ordinary. Qed.

Lemma fit_box_ordinary isz sz bleed c : ordinary (fit_box isz sz bleed c).
Proof.
  unfold fit_box. cbv zeta.
  repeat (match goal with
          | |- ordinary (if ?b then _ else _) => destruct b
          | |- ordinary (obind _ _) => apply ordinary_obind
          | |- forall _, _ => intros [? ?]
          end; auto with ordinary).
Qed.

Lemma Image_resize_ordinary {K : PixelKernels} im sz box : ordinary (Image_resize im sz box).
Proof.
  unfold Image_resize. destruct box as [[[l t] r] b].
  repeat (match goal with
          | |- ordinary (if ?b then _ else _) => destruct b
          end; auto with ordinary).
Qed.

Lemma ImageOps_fit_ordinary {K : PixelKernels} im sz c : ordinary (ImageOps_fit im sz c).
Proof.
  unfold ImageOps_fit. apply ordinary_obind; [apply fit_box_ordinary |].
  intros box. apply Image_resize_ordinary.
Qed.

Lemma Image_putalpha_ordinary self a : ordinary (Image_putalpha self a).
Proof. unfold Image_putalpha. repeat case_match; auto with ordinary. Qed.

#[local] Hint Resolve ImageDraw_rounded_rectangle_ordinary py_int_ordinary
  Image_convert_ordinary ImageOps_fit_ordinary Image_putalpha_ordinary
  Image_new_ordinary Image_alpha_composite_ordinary : ordinary.

Lemma make_mask_ordinary : ordinary make_mask.
Proof. unfold make_mask. auto with ordinary. Qed.

Lemma make_content_ordinary {K : PixelKernels} img mask : ordinary (make_content img mask).
Proof. unfold make_content, fit_content. auto with ordinary. Qed.

Lemma draw_shadow_ordinary : ordinary draw_shadow.
Proof. unfold draw_shadow, shadow_size. auto 6 with ordinary. Qed.

Lemma make_shadow_ordinary {K : PixelKernels} : ordinary make_shadow.
Proof.
  unfold make_shadow. apply ordinary_obind; [apply draw_shadow_ordinary |].
  auto with ordinary.
Qed.

Lemma composite_ordinary {K : PixelKernels} shadow content : ordinary (composite shadow content).
Proof. unfold composite. auto 6 with ordinary. Qed.

#[local] Hint Resolve make_mask_ordinary make_content_ordinary make_shadow_ordinary
  composite_ordinary : ordinary.

(** ** What the stages do to the world *)

Lemma decompression_bomb_check_ordinary sz : ordinary (decompression_bomb_check sz).
Proof. unfold decompression_bomb_check. case_match; auto with ordinary. Qed.

Lemma Image_open_world path w o w' :
  Image_open path w = (o, w') -> w' = log_io (OpenRead path) w /\ ordinary o.
Proof.
  unfold Image_open. destruct (fs w !! path) as [[fmt im| |]|]; intros [= <- <-];
    auto using decompression_bomb_check_ordinary with ordinary.
Qed.

(** The stages before the save read one file and touch nothing else. *)
Lemma build_canvas_world {K : PixelKernels} inp w o w' :
  build_canvas inp w = (o, w') -> w' = log_io (OpenRead inp) w /\ ordinary o.
Proof.
  unfold build_canvas, bind. intros H.
  destruct (Image_open inp w) as [[img|e] w0] eqn:Hopen.
  2:{ apply Image_open_world in Hopen as [-> Ho]. injection H as <- <-. auto. }
  apply Image_open_world in Hopen as [-> _].
  unfold lift in H.
  destruct (Image_convert img "RGBA") as [img'|e] eqn:Hc.
  2:{ injection H as <- <-. split; [reflexivity | rewrite <- Hc; auto with ordinary]. }
  destruct make_mask as [mask|e] eqn:Hm.
  2:{ injection H as <- <-. split; [reflexivity | rewrite <- Hm; auto with ordinary]. }
  destruct (make_content img' mask) as [content|e] eqn:Hct.
  2:{ injection H as <- <-. split; [reflexivity | rewrite <- Hct; auto with ordinary]. }
  destruct make_shadow as [shadow|e] eqn:Hs.
  2:{ injection H as <- <-. split; [reflexivity | rewrite <- Hs; auto with ordinary]. }
  injection H as <- <-. split; [reflexivity | auto with ordinary].
Qed.

Lemma Image_save_ordinary im fp format w e w' :
  Image_save im fp format w = (Raise e, w') -> is_Exception e = true.
Proof.
  unfold Image_save. cbv zeta. intros H.
  repeat case_match; simplify_eq; try reflexivity.
  all: match goal with
       | H : encode _ _ = Raise _ |- _ =>
           unfold encode in H; repeat case_match; simplify_eq; reflexivity
       end.
Qed.

(** A save that returns has written the image, in the format asked for. *)
Lemma Image_save_Return im fp (format : string) w w' :
  Image_save im fp (Some format) w = (Return tt, w') ->
  format <> "" ->
  exists fmt data,
    SAVE (upper format) = Some fmt /\ encode fmt im = Return data /\
    disk w fp <> CannotOpen /\ disk w fp <> FailsMidWrite /\
    w' = set_fs (<[fp := data]> (fs w)) (log_io (OpenWrite fp) w).
Proof.
  unfold Image_save. cbv zeta. intros H Hne.
  destruct (String.eqb_spec format "") as [->|_]; [congruence |].
  destruct (SAVE (upper format)) as [fmt|]; [| discriminate].
  exists fmt.
  destruct (disk w fp) eqn:Hd; try discriminate.
  destruct (encode fmt im) as [data|e] eqn:He; [| discriminate].
  exists data. injection H as <-. repeat split; congruence.
Qed.

(** ** The try block and the interpreter *)

Lemma icon_body_ordinary {K : PixelKernels} inp outp w e w' :
  icon_body inp outp w = (Raise e, w') -> is_Exception e = true.
Proof.
  unfold icon_body. intros H.
  apply bind_Raise in H as [H | (canvas & w1 & _ & H)].
  - apply build_canvas_world in H as [_ Ho]. apply Ho. reflexivity.
  - apply bind_Raise in H as [H | ([] & w2 & _ & H)].
    + eapply Image_save_ordinary; eassumption.
    + discriminate.
Qed.

(** With both paths given (arguments beyond the second are ignored), the
    exit status and the final world follow the outcome of the [try] body. *)
Lemma run_with_paths {K : PixelKernels} prog inp outp rest w :
  run (prog :: inp :: outp :: rest) w =
  match icon_body inp outp w with
  | (Return _, w') => (0, w')
  | (Raise e, w') => (1, add_line ("Error processing image: " ++ str e) w')
  end.
Proof.
  unfold run, main.
  assert ((Z.of_nat (List.length (prog :: inp :: outp :: rest)) <? 3) = false) as ->.
  { apply Z.ltb_ge. simpl List.length. lia. }
  change (nth 1 (prog :: inp :: outp :: rest) "") with inp.
  change (nth 2 (prog :: inp :: outp :: rest) "") with outp.
  unfold create_macos_icon, try_except.
  destruct (icon_body inp outp w) as [[[]|e] w'] eqn:Hb; [reflexivity |].
  rewrite (icon_body_ordinary _ _ _ _ _ Hb). reflexivity.
Qed.

Lemma icon_body_Return {K : PixelKernels} inp outp w w' :
  icon_body inp outp w = (Return tt, w') ->
  exists canvas,
    build_canvas inp w = (Return canvas, log_io (OpenRead inp) w) /\
    disk w outp <> CannotOpen /\ disk w outp <> FailsMidWrite /\
    w' = add_line ("Created macOS-compliant icon at " ++ outp)
           (set_fs (<[outp := Encoded PNG canvas]> (fs w))
              (log_io (OpenWrite outp) (log_io (OpenRead inp) w))).
Proof.
  unfold icon_body. intros H.
  apply bind_Return in H as (canvas & w1 & Hb & H).
  apply bind_Return in H as ([] & w2 & Hs & Hp).
  pose proof (build_canvas_world _ _ _ _ Hb) as [-> _].
  apply Image_save_Return in Hs as (fmt & data & Hfmt & Henc & Hd1 & Hd2 & ->);
    [| discriminate].
  injection Hfmt as <-. injection Henc as <-.
  exists canvas. injection Hp as <-. auto.
Qed.

Lemma build_canvas_shape {K : PixelKernels} inp w canvas w' :
  build_canvas inp w = (Return canvas, w') ->
  mode canvas = ModeRGBA /\ width canvas = CANVAS_SIZE /\ height canvas = CANVAS_SIZE.
Proof.
  unfold build_canvas. intros H.
  apply bind_Return in H as (img & w1 & _ & H).
  apply bind_Return in H as (img' & w2 & _ & H).
  apply bind_Return in H as (mask & w3 & _ & H).
  apply bind_Return in H as (content & w4 & _ & H).
  apply bind_Return in H as (shadow & w5 & _ & H).
  apply lift_inv in H as [H _].
  eapply composite_shape; eassumption.
Qed.

(** A zero exit status means the [try] body ran to its end. *)
Lemma run_success {K : PixelKernels} prog inp outp rest w :
  fst (run (prog :: inp :: outp :: rest) w) = 0 ->
  exists canvas,
    build_canvas inp w = (Return canvas, log_io (OpenRead inp) w) /\
    disk w outp <> CannotOpen /\ disk w outp <> FailsMidWrite /\
    snd (run (prog :: inp :: outp :: rest) w) =
      add_line ("Created macOS-compliant icon at " ++ outp)
        (set_fs (<[outp := Encoded PNG canvas]> (fs w))
           (log_io (OpenWrite outp) (log_io (OpenRead inp) w))).
Proof.
  rewrite run_with_paths.
  destruct (icon_body inp outp w) as [[[]|e] w'] eqn:Hb; simpl; [| discriminate].
  intros _. apply icon_body_Return in Hb as (canvas & Hc & Hd1 & Hd2 & ->).
  exists canvas. auto.
Qed.

(** ** The claims *)

(** C2. For every input image, a successful run (exit status 0) leaves at
    the output path a PNG file holding an image of exactly 1024 x 1024
    pixels in mode RGBA. *)
Theorem output_is_1024_rgba_png {K : PixelKernels}
    (prog inp outp : string) (rest : list string) (w : World) :
  fst (run (prog :: inp :: outp :: rest) w) = 0 ->
  exists im,
    fs (snd (run (prog :: inp :: outp :: rest) w)) !! outp = Some (Encoded PNG im) /\
    size im = (1024, 1024) /\ mode im = ModeRGBA.
Proof.
  intros Hok. apply run_success in Hok as (canvas & Hc & _ & _ & ->).
  apply build_canvas_shape in Hc as (Hm & Hw & Hh).
  exists canvas. cbn [snd fs add_line set_fs]. rewrite files_lookup_insert_eq.
  unfold size. rewrite Hw, Hh. auto.
Qed.

Lemma output_is_1024_rgba_png_witness :
  fst (run (K := demo_kernels) ["process_icon.py"; "red.jpg"; "icon.png"] demo_world) = 0 /\
  exists im,
    fs (snd (run (K := demo_kernels) ["process_icon.py"; "red.jpg"; "icon.png"] demo_world))
      !! "icon.png" = Some (Encoded PNG im) /\
    size im = (1024, 1024) /\ mode im = ModeRGBA.
Proof.
  split; [vm_compute; reflexivity |].
  apply (output_is_1024_rgba_png (K := demo_kernels)). vm_compute. reflexivity.
Defined.

(** C3. Whatever exception the body of the [try] raises (decoding,
    drawing, resizing, blurring, compositing or encoding), the script prints
    "Error processing image: " followed by the exception's message and
    exits with status 1. *)
Theorem processing_error_is_reported {K : PixelKernels}
    (prog inp outp : string) (rest : list string) (w w' : World) (e : Exc) :
  icon_body inp outp w = (Raise e, w') ->
  run (prog :: inp :: outp :: rest) w = (1, add_line ("Error processing image: " ++ str e) w').
Proof.
  intros Hb. rewrite run_with_paths, Hb. reflexivity.
Qed.

Lemma processing_error_is_reported_witness :
  run (K := demo_kernels) ["process_icon.py"; "missing.png"; "icon.png"] demo_world =
  (1, add_line
        ("Error processing image: " ++
         str (Error FileNotFoundError "[Errno 2] No such file or directory: 'missing.png'"))
        (log_io (OpenRead "missing.png") demo_world)).
Proof.
  apply (processing_error_is_reported (K := demo_kernels)). reflexivity.
Defined.

Lemma Image_save_log im fp format w :
  io_log (snd (Image_save im fp format w)) = io_log w \/
  io_log (snd (Image_save im fp format w)) = (io_log w ++ [OpenWrite fp])%list.
Proof.
  unfold Image_save. cbv zeta. repeat case_match; simpl; auto.
Qed.

(** The files a run of the [try] body opens: the input, then, once the
    canvas is complete, the output. *)
Lemma icon_body_log {K : PixelKernels} inp outp w :
  io_log (snd (icon_body inp outp w)) = (io_log w ++ [OpenRead inp])%list \/
  (io_log (snd (icon_body inp outp w)) = (io_log w ++ [OpenRead inp; OpenWrite outp])%list /\
   exists canvas, build_canvas inp w = (Return canvas, log_io (OpenRead inp) w)).
Proof.
  unfold icon_body, bind.
  destruct (build_canvas inp w) as [[canvas|e] w1] eqn:Hc;
    pose proof (build_canvas_world _ _ _ _ Hc) as [-> _]; [| left; reflexivity].
  pose proof (Image_save_log canvas outp (Some "PNG") (log_io (OpenRead inp) w)) as Hlog.
  destruct (Image_save canvas outp (Some "PNG") (log_io (OpenRead inp) w))
    as [[[]|e] w2]; simpl in *.
  - destruct Hlog as [-> | ->]; [left; reflexivity | right].
    split; [by rewrite <- app_assoc | eauto].
  - destruct Hlog as [-> | ->]; [left; reflexivity | right].
    split; [by rewrite <- app_assoc | eauto].
Qed.

Lemma create_macos_icon_log {K : PixelKernels} inp outp w :
  io_log (snd (create_macos_icon inp outp w)) = io_log (snd (icon_body inp outp w)).
Proof.
  unfold create_macos_icon, try_except.
  destruct (icon_body inp outp w) as [[[]|e] w']; [reflexivity |].
  destruct (is_Exception e); reflexivity.
Qed.

(** [create_macos_icon] opens its input before anything else: a run that
    entered it shows in the log of opened files. *)
Lemma create_macos_icon_opens_input {K : PixelKernels} inp outp w :
  exists rest,
    io_log (snd (create_macos_icon inp outp w)) = (io_log w ++ OpenRead inp :: rest)%list.
Proof.
  rewrite create_macos_icon_log.
  destruct (icon_body_log inp outp w) as [-> | [-> _]]; eauto.
Qed.

(** C4. When a stage before the save fails, the run leaves the file
    system as it found it and has opened no file for writing: the only
    file opened is the input, for reading.  The save is the last step. *)
Theorem no_output_before_canvas_is_built {K : PixelKernels}
    (inp outp : string) (w w1 : World) (e : Exc) :
  build_canvas inp w = (Raise e, w1) ->
  fs (snd (create_macos_icon inp outp w)) = fs w /\
  io_log (snd (create_macos_icon inp outp w)) = (io_log w ++ [OpenRead inp])%list /\
  fst (create_macos_icon inp outp w) = Raise (SystemExit 1).
Proof.
  intros Hc.
  pose proof (build_canvas_world _ _ _ _ Hc) as [-> Ho].
  assert (icon_body inp outp w = (Raise e, log_io (OpenRead inp) w)) as Hb.
  { unfold icon_body, bind. rewrite Hc. reflexivity. }
  unfold create_macos_icon, try_except.
  rewrite Hb, (Ho e eq_refl). auto.
Qed.

Lemma no_output_before_canvas_is_built_witness :
  fs (snd (create_macos_icon (K := demo_kernels) "notes.txt" "icon.png" demo_world))
    = fs demo_world /\
  io_log (snd (create_macos_icon (K := demo_kernels) "notes.txt" "icon.png" demo_world))
    = (io_log demo_world ++ [OpenRead "notes.txt"])%list /\
  fst (create_macos_icon (K := demo_kernels) "notes.txt" "icon.png" demo_world)
    = Raise (SystemExit 1).
Proof.
  eapply (no_output_before_canvas_is_built (K := demo_kernels)). reflexivity.
Defined.

(** The other direction: a file opened for writing during the run is the
    output path, and the canvas was complete by then. *)
Lemma write_only_after_canvas_is_built {K : PixelKernels} inp outp w p :
  In (OpenWrite p) (io_log (snd (create_macos_icon inp outp w))) ->
  In (OpenWrite p) (io_log w) \/
  (p = outp /\ exists canvas w1, build_canvas inp w = (Return canvas, w1)).
Proof.
  rewrite create_macos_icon_log.
  destruct (icon_body_log inp outp w) as [-> | [-> (canvas & Hc)]];
    rewrite in_app_iff; simpl.
  - intros [H | [H | []]]; [auto | discriminate].
  - intros [H | [H | [H | []]]]; [auto | discriminate |].
    injection H as <-. eauto.
Qed.

(** C8. With fewer than two arguments after the program name, the script
    prints the usage line and exits with status 1; the file system and the
    log of opened files are as before, so [create_macos_icon], which opens
    its input first, was not entered. *)
Theorem too_few_arguments_is_usage_error {K : PixelKernels}
    (prog : string) (args : list string) (w : World) :
  (List.length args < 2)%nat ->
  run (prog :: args) w = (1, add_line usage w) /\
  fs (snd (run (prog :: args) w)) = fs w /\
  io_log (snd (run (prog :: args) w)) = io_log w.
Proof.
  intros Hlen. unfold run, main.
  assert ((Z.of_nat (List.length (prog :: args)) <? 3) = true) as ->.
  { apply Z.ltb_lt. simpl List.length. lia. }
  auto.
Qed.

Lemma too_few_arguments_is_usage_error_witness :
  run (K := demo_kernels) ["process_icon.py"; "red.jpg"] demo_world
    = (1, add_line usage demo_world) /\
  fs (snd (run (K := demo_kernels) ["process_icon.py"; "red.jpg"] demo_world))
    = fs demo_world /\
  io_log (snd (run (K := demo_kernels) ["process_icon.py"; "red.jpg"] demo_world))
    = io_log demo_world.
Proof.
  apply (too_few_arguments_is_usage_error (K := demo_kernels)). simpl. lia.
Defined.

(** C10. The file a successful run writes is PNG-encoded whatever the
    output path looks like: the format comes from the argument of [save],
    not from the extension. *)
Theorem output_format_ignores_extension {K : PixelKernels}
    (prog inp outp : string) (rest : list string) (w : World) :
  fst (run (prog :: inp :: outp :: rest) w) = 0 ->
  exists canvas w1,
    build_canvas inp w = (Return canvas, w1) /\
    fs (snd (run (prog :: inp :: outp :: rest) w)) !! outp = Some (Encoded PNG canvas).
Proof.
  intros Hok. apply run_success in Hok as (canvas & Hc & _ & _ & ->).
  exists canvas, (log_io (OpenRead inp) w). split; [exact Hc |].
  cbn [snd fs add_line set_fs]. apply files_lookup_insert_eq.
Qed.

(** An output path ending in .jpg, whose extension names the JPEG writer. *)
Lemma output_format_ignores_extension_witness :
  EXTENSION (lower (snd (splitext "icon.jpg"))) = Some "JPEG" /\
  exists canvas w1,
    build_canvas (K := demo_kernels) "red.jpg" demo_world = (Return canvas, w1) /\
    fs (snd (run (K := demo_kernels) ["process_icon.py"; "red.jpg"; "icon.jpg"] demo_world))
      !! "icon.jpg" = Some (Encoded PNG canvas).
Proof.
  split; [reflexivity |].
  apply (output_format_ignores_extension (K := demo_kernels)). vm_compute. reflexivity.
Defined.

(** Had [save] been left to pick the format from the extension, the same
    canvas could not have been written to a .jpg path at all. *)
Lemma save_by_extension_refuses_rgba_jpeg (canvas : Image) (w : World) :
  mode canvas = ModeRGBA -> disk w "icon.jpg" = NoFault ->
  fst (Image_save canvas "icon.jpg" None w)
    = Raise (Error OSError "cannot write mode RGBA as JPEG").
Proof.
  intros Hm Hd. unfold Image_save. cbv zeta.
  change (lower (snd (splitext "icon.jpg"))) with ".jpg".
  change (EXTENSION ".jpg") with (Some "JPEG").
  change (String.eqb "" "") with true. cbv iota.
  change (SAVE (upper "JPEG")) with (Some JPEG). cbv iota.
  rewrite Hd. unfold encode. rewrite Hm. reflexivity.
Qed.

(** ** The crop box of the fit *)

(** The box [ImageOps.fit] cuts from a W x H source for a square target,
    centred: the whole image when it is square, else the middle square of
    side min(W, H). *)
Lemma fit_box_spec (W H S : Z) :
  0 < W -> 0 < H -> 0 < S ->
  exists l t r b,
    fit_box (W, H) (S, S) 0 (1 # 2, 1 # 2)%Q = Return (l, t, r, b) /\
    (W = H -> (l == 0 /\ t == 0 /\ r == inject_Z W /\ b == inject_Z H)%Q) /\
    (H < W -> (l == (inject_Z W - inject_Z H) * (1 # 2) /\ t == 0 /\
               r == (inject_Z W + inject_Z H) * (1 # 2) /\ b == inject_Z H)%Q) /\
    (W < H -> (l == 0 /\ t == (inject_Z H - inject_Z W) * (1 # 2) /\
               r == inject_Z W /\ b == (inject_Z W + inject_Z H) * (1 # 2))%Q).
Proof.
  intros HW HH HS. unfold fit_box.
  change (Qle_bool 0 (fst (1 # 2, 1 # 2)%Q) && Qle_bool (fst (1 # 2, 1 # 2)%Q) 1) with true.
  change (Qle_bool 0 (snd (1 # 2, 1 # 2)%Q) && Qle_bool (snd (1 # 2, 1 # 2)%Q) 1) with true.
  change (Qle_bool 0 0 && Qlt_bool 0 (1 # 2)) with true.
  cbv iota zeta. cbn [fst snd].
  assert (0 < inject_Z W)%Q as Hw
    by (change 0%Q with (inject_Z 0); rewrite <- Zlt_Qlt; exact HW).
  assert (0 < inject_Z H)%Q as Hh
    by (change 0%Q with (inject_Z 0); rewrite <- Zlt_Qlt; exact HH).
  assert (0 < inject_Z S)%Q as Hs
    by (change 0%Q with (inject_Z 0); rewrite <- Zlt_Qlt; exact HS).
  assert (W < H <-> (inject_Z W < inject_Z H)%Q) as HltWH
    by (rewrite <- Zlt_Qlt; reflexivity).
  assert (H < W <-> (inject_Z H < inject_Z W)%Q) as HltHW
    by (rewrite <- Zlt_Qlt; reflexivity).
  assert (W = H <-> (inject_Z W == inject_Z H)%Q) as HeqWH.
  { split; [intros ->; reflexivity | apply inject_Z_injective]. }
  revert HltWH HltHW HeqWH.
  generalize dependent (inject_Z W). generalize dependent (inject_Z H).
  generalize dependent (inject_Z S).
  intros s Hs h Hh w Hw HltWH HltHW HeqWH.
  assert (~ s == 0)%Q as Hs0 by lra.
  assert (~ h == 0)%Q as Hh0 by lra.
  assert (s / s == 1)%Q as Hss by (field; exact Hs0).
  assert ((w - 0 * w * 2) / (h - 0 * h * 2) == w / h)%Q as Hratio by (field; exact Hh0).
  assert (h * (w / h) == w)%Q as Hmul by (field; exact Hh0).
  destruct (Qeq_bool (h - 0 * h * 2) 0) eqn:E0.
  { apply Qeq_bool_iff in E0. exfalso. lra. }
  destruct (S =? 0) eqn:ES; [lia |].
  destruct (Qeq_bool _ (s / s)) eqn:E1; [| destruct (Qle_bool (s / s) _) eqn:E2;
    [| destruct (Qeq_bool (s / s) 0) eqn:E3]].
  - (* the source is square *)
    apply Qeq_bool_iff in E1. rewrite Hratio, Hss in E1.
    assert (w == h)%Q as Hwh by (rewrite <- Hmul, E1; ring).
    simpl. do 4 eexists. split; [reflexivity |].
    (split; [| split]); intros Hc;
      try apply HltWH in Hc; try apply HltHW in Hc; try apply HeqWH in Hc;
      repeat split; lra.
  - (* wider than tall: the sides go *)
    apply Qeq_bool_neq in E1. apply Qle_bool_iff in E2. rewrite Hratio, Hss in E1, E2.
    assert (h <= w)%Q as Hle.
    { apply (Qmult_le_l _ _ h Hh) in E2. rewrite Hmul, Qmult_1_r in E2. exact E2. }
    simpl. do 4 eexists. split; [reflexivity |].
    (split; [| split]); intros Hc;
      try apply HltWH in Hc; try apply HltHW in Hc; try apply HeqWH in Hc;
      repeat split; try rewrite Hss; try lra.
    all: exfalso; apply E1; rewrite Hc; field; exact Hh0.
  - apply Qeq_bool_iff in E3. lra.
  - (* taller than wide: top and bottom go *)
    assert (~ (s / s <= w / h))%Q as E2'.
    { rewrite <- Hratio. intros Hle. apply Qle_bool_iff in Hle. congruence. }
    rewrite Hss in E2'. apply Qnot_le_lt in E2'.
    assert (w < h)%Q as Hlt.
    { apply (Qmult_lt_l _ _ h Hh) in E2'. rewrite Hmul, Qmult_1_r in E2'. exact E2'. }
    simpl. do 4 eexists. split; [reflexivity |].
    (split; [| split]); intros Hc;
      try apply HltWH in Hc; try apply HltHW in Hc; try apply HeqWH in Hc;
      repeat split; try lra.
    all: field; exact Hs0.
Qed.

(** ** Which source pixels the fit reads *)

Lemma Qlt_bool_false (a b : Q) : (b <= a)%Q -> Qlt_bool a b = false.
Proof.
  intros Hle. unfold Qlt_bool. apply Qle_bool_iff in Hle. rewrite Hle. reflexivity.
Qed.



Lemma trunc_inject_Z (z : Z) : PyFloat.trunc (inject_Z z) = z.
Proof.
  unfold PyFloat.trunc. destruct (Qle_bool 0 (inject_Z z)).
  - apply Qfloor_Z.
  - apply Qceiling_Z.
Qed.




















(** ** Valid inputs are processed *)

(** The fit of a source of positive size never fails: its crop box lies
    inside the source. *)
Lemma fit_content_returns {K : PixelKernels} (img : Image) :
  0 < width img -> 0 < height img ->
  exists resized,
    fit_content img = Return resized /\ mode resized = mode img /\
    width resized = SHAPE_SIZE /\ height resized = SHAPE_SIZE.
Proof.
  intros HW HH.
  destruct (fit_box_spec (width img) (height img) SHAPE_SIZE HW HH eq_refl)
    as (l & t & r & b & Hbox & Hsq & Hwide & Htall).
  assert (0 < inject_Z (width img))%Q as Hw
    by (change 0%Q with (inject_Z 0); rewrite <- Zlt_Qlt; exact HW).
  assert (0 < inject_Z (height img))%Q as Hh
    by (change 0%Q with (inject_Z 0); rewrite <- Zlt_Qlt; exact HH).
  assert (0 <= l /\ 0 <= t /\ r <= inject_Z (width img) /\ b <= inject_Z (height img)
          /\ 0 <= r - l /\ 0 <= b - t)%Q as (Hl & Ht & Hr & Hb & Hrl & Hbt).
  { destruct (Z.lt_trichotomy (width img) (height img)) as [Hlt | [Heq | Hgt]].
    - pose proof Hlt as Hq. rewrite Zlt_Qlt in Hq.
      destruct (Htall Hlt) as (? & ? & ? & ?). repeat split; lra.
    - destruct (Hsq Heq) as (? & ? & ? & ?). repeat split; lra.
    - pose proof Hgt as Hq. rewrite Zlt_Qlt in Hq.
      destruct (Hwide Hgt) as (? & ? & ? & ?). repeat split; lra. }
  unfold fit_content, ImageOps_fit. rewrite Hbox. cbn [obind].
  unfold Image_resize. cbn [fst snd].
  destruct ((SHAPE_SIZE =? width img) && (SHAPE_SIZE =? height img)
            && box_is_whole (l, t, r, b) img) eqn:Hsame.
  - apply andb_true_iff in Hsame as [Hsame _].
    apply andb_true_iff in Hsame as [Hsw Hsh].
    apply Z.eqb_eq in Hsw, Hsh. exists img. auto.
  - change ((SHAPE_SIZE <? 1) || (SHAPE_SIZE <? 1)) with false. cbv iota.
    rewrite (Qlt_bool_false l 0 Hl), (Qlt_bool_false t 0 Ht).
    rewrite (Qlt_bool_false _ _ Hr), (Qlt_bool_false _ _ Hb).
    rewrite (Qlt_bool_false _ _ Hrl), (Qlt_bool_false _ _ Hbt).
    cbn [orb]. eexists. split; [reflexivity |]. auto.
Qed.

Lemma Image_alpha_composite_returns {K : PixelKernels} (self im : Image) (dest : Z * Z) :
  mode self = ModeRGBA -> mode im = ModeRGBA ->
  exists out, Image_alpha_composite self im dest = Return out /\ mode out = ModeRGBA.
Proof.
  intros Hs Hi. unfold Image_alpha_composite. destruct dest as [dx dy].
  rewrite Hs, Hi. eexists. split; [reflexivity |]. reflexivity.
Qed.

Lemma make_mask_returns :
  exists mask,
    make_mask = Return mask /\ mode mask = ModeL /\
    width mask = SHAPE_SIZE /\ height mask = SHAPE_SIZE.
Proof. eexists. split; [reflexivity |]. auto. Qed.

Lemma draw_shadow_returns :
  exists shadow,
    draw_shadow = Return shadow /\ mode shadow = ModeRGBA /\
    width shadow = CANVAS_SIZE /\ height shadow = CANVAS_SIZE.
Proof. eexists. split; [reflexivity |]. auto. Qed.

Lemma MAX_IMAGE_PIXELS_value : 2 * MAX_IMAGE_PIXELS = 178956970.
Proof. reflexivity. Qed.

Lemma decompression_bomb_check_passes (sz : Z * Z) :
  0 < fst sz -> 0 < snd sz -> fst sz * snd sz <= 2 * MAX_IMAGE_PIXELS ->
  decompression_bomb_check sz = Return tt.
Proof.
  intros HW HH Hpx. unfold decompression_bomb_check.
  rewrite !Z.max_r by lia.
  destruct (Z.ltb_spec (2 * MAX_IMAGE_PIXELS) (fst sz * snd sz)); [lia | reflexivity].
Qed.

(** Every decodable image of positive size within the pixel limit is
    turned into a canvas. *)
Lemma build_canvas_returns {K : PixelKernels} inp fmt img w :
  fs w !! inp = Some (Encoded fmt img) ->
  0 < width img -> 0 < height img ->
  width img * height img <= 2 * MAX_IMAGE_PIXELS ->
  exists canvas, build_canvas inp w = (Return canvas, log_io (OpenRead inp) w).
Proof.
  intros Hfile HW HH Hpx.
  unfold build_canvas, bind, Image_open. rewrite Hfile.
  rewrite (decompression_bomb_check_passes (size img) HW HH Hpx). cbn [obind].
  change (Image_convert img "RGBA")
    with (Return (mkImage ModeRGBA (width img) (height img)
                    (fun x y => convert_color ModeRGBA (px img x y)))).
  unfold lift.
  destruct make_mask_returns as (mask & -> & Hmm & Hmw & Hmh).
  set (img' := mkImage ModeRGBA _ _ _).
  destruct (fit_content_returns img' HW HH) as (resized & Hfit & Hrm & Hrw & Hrh).
  unfold make_content. rewrite Hfit. cbn [obind].
  unfold Image_putalpha. rewrite Hmm, Hmw, Hmh, Hrw, Hrh, !Z.eqb_refl. cbn [andb].
  destruct draw_shadow_returns as (shadow & Hsh & Hsm & _ & _).
  unfold make_shadow. rewrite Hsh. cbn [obind].
  unfold composite.
  change (Image_new "RGBA" (CANVAS_SIZE, CANVAS_SIZE) (CTuple [0; 0; 0; 0]))
    with (Return (mkImage ModeRGBA CANVAS_SIZE CANVAS_SIZE (fun _ _ => Rgba 0 0 0 0))).
  cbn [obind].
  assert (mode (Image_filter_GaussianBlur shadow 15) = ModeRGBA) as Hbm.
  { unfold Image_filter_GaussianBlur. simpl. exact Hsm. }
  edestruct (Image_alpha_composite_returns
               (mkImage ModeRGBA CANVAS_SIZE CANVAS_SIZE (fun _ _ => Rgba 0 0 0 0))
               (Image_filter_GaussianBlur shadow 15) (0, 0) eq_refl Hbm)
    as (c1 & -> & Hc1).
  cbn [obind].
  edestruct (Image_alpha_composite_returns c1
               (mkImage (with_alpha (mode resized)) SHAPE_SIZE SHAPE_SIZE
                  (fun x y => set_alpha (px resized x y) (gray (px mask x y))))
               (PADDING, PADDING) Hc1)
    as (c2 & -> & _); [cbn [mode]; rewrite Hrm; reflexivity |].
  eauto.
Qed.

(** A run on a decodable image of positive size within the pixel limit,
    writing where the disk takes the file, exits with status 0. *)
Lemma valid_input_succeeds {K : PixelKernels} prog inp outp rest fmt img w :
  fs w !! inp = Some (Encoded fmt img) ->
  0 < width img -> 0 < height img ->
  width img * height img <= 2 * MAX_IMAGE_PIXELS ->
  disk w outp = NoFault ->
  fst (run (prog :: inp :: outp :: rest) w) = 0.
Proof.
  intros Hfile HW HH Hpx Hdisk.
  destruct (build_canvas_returns inp fmt img w Hfile HW HH Hpx) as (canvas & Hc).
  rewrite run_with_paths. unfold icon_body, bind. rewrite Hc.
  unfold Image_save. cbv zeta.
  change (String.eqb "PNG" "") with false. cbv iota.
  change (SAVE (upper "PNG")) with (Some PNG). cbv iota.
  change (disk (log_io (OpenRead inp) w) outp) with (disk w outp).
  rewrite Hdisk. reflexivity.
Qed.

(** ** The mask, the content layer and the shadow *)

(** C6. The mask is an "L" image of SHAPE_SIZE x SHAPE_SIZE pixels whose
    corner pixel (0, 0) is 0 and whose centre pixel is 255. *)
Theorem mask_corner_is_clear_and_centre_is_opaque :
  exists mask,
    make_mask = Return mask /\
    mode mask = ModeL /\ size mask = (SHAPE_SIZE, SHAPE_SIZE) /\
    px mask 0 0 = Lum 0 /\
    px mask (SHAPE_SIZE / 2) (SHAPE_SIZE / 2) = Lum 255.
Proof.
  eexists. split; [reflexivity |].
  repeat split; vm_compute; reflexivity.
Qed.

(** The other three corners are clear as well. *)
Lemma mask_other_corners_are_clear :
  exists mask,
    make_mask = Return mask /\
    px mask (SHAPE_SIZE - 1) 0 = Lum 0 /\
    px mask 0 (SHAPE_SIZE - 1) = Lum 0 /\
    px mask (SHAPE_SIZE - 1) (SHAPE_SIZE - 1) = Lum 0.
Proof.
  eexists. split; [reflexivity |].
  repeat split; vm_compute; reflexivity.
Qed.

(** C9. Masking changes the alpha of every pixel of the fitted image to
    the mask's value there and leaves its red, green and blue as they
    were. *)
Theorem masking_sets_alpha_and_keeps_rgb {K : PixelKernels}
    (img mask resized content : Image) :
  fit_content img = Return resized ->
  make_content img mask = Return content ->
  forall x y : Z,
    alpha (px content x y) = gray (px mask x y) /\
    red (px content x y) = red (px resized x y) /\
    green (px content x y) = green (px resized x y) /\
    blue (px content x y) = blue (px resized x y).
Proof.
  intros Hfit Hcontent x y.
  unfold make_content in Hcontent. rewrite Hfit in Hcontent. cbn [obind] in Hcontent.
  unfold Image_putalpha in Hcontent.
  destruct (mode mask); try discriminate.
  destruct (_ && _); [| discriminate].
  injection Hcontent as <-. cbn [px].
  destruct (px resized x y); simpl; auto.
Qed.

Lemma masking_sets_alpha_and_keeps_rgb_witness :
  exists mask resized content,
    make_mask = Return mask /\
    fit_content (K := demo_kernels) red_source = Return resized /\
    make_content (K := demo_kernels) red_source mask = Return content /\
    px resized 0 0 = Rgba 255 0 0 255 /\
    px content 0 0 = Rgba 255 0 0 0 /\
    px content 412 412 = Rgba 255 0 0 255 /\
    forall x y : Z,
      alpha (px content x y) = gray (px mask x y) /\
      red (px content x y) = red (px resized x y) /\
      green (px content x y) = green (px resized x y) /\
      blue (px content x y) = blue (px resized x y).
Proof.
  do 3 eexists.
  split; [reflexivity |].
  split; [reflexivity |].
  split; [reflexivity |].
  split; [vm_compute; reflexivity |].
  split; [vm_compute; reflexivity |].
  split; [vm_compute; reflexivity |].
  apply (masking_sets_alpha_and_keeps_rgb (K := demo_kernels) red_source);
    reflexivity.
Defined.

(** C1 (the code departs from it). Line 32 computes [shadow_size] = 807,
    and nothing uses it: the rectangle handed to [rounded_rectangle] spans
    SHAPE_SIZE = 824 in both directions, and the shadow layer before the
    blur is painted from column 100 to column 924 and from row 110 to row
    934, well beyond column 100 + 807 and row 110 + 807. *)
Theorem shadow_is_drawn_at_full_shape_size :
  shadow_size = Return 807 /\
  shadow_rect = ((100, 110), (924, 934)) /\
  fst (snd shadow_rect) - fst (fst shadow_rect) = SHAPE_SIZE /\
  snd (snd shadow_rect) - snd (fst shadow_rect) = SHAPE_SIZE /\
  SHAPE_SIZE = 824 /\
  exists shadow,
    draw_shadow = Return shadow /\
    px shadow 99 500 = Rgba 0 0 0 0 /\
    px shadow 100 500 = Rgba 0 0 0 160 /\
    px shadow 920 500 = Rgba 0 0 0 160 /\
    px shadow 924 500 = Rgba 0 0 0 160 /\
    px shadow 925 500 = Rgba 0 0 0 0 /\
    px shadow 500 109 = Rgba 0 0 0 0 /\
    px shadow 500 110 = Rgba 0 0 0 160 /\
    px shadow 500 930 = Rgba 0 0 0 160 /\
    px shadow 500 934 = Rgba 0 0 0 160 /\
    px shadow 500 935 = Rgba 0 0 0 0.
Proof.
  split; [vm_compute; reflexivity |].
  split; [reflexivity |].
  split; [reflexivity |].
  split; [reflexivity |].
  split; [reflexivity |].
  eexists. split; [reflexivity |].
  repeat split; vm_compute; reflexivity.
Qed.

(** The radius the script passes is the binary64 nearest to 181.28. *)
Lemma radius_value :
  PyFloat.value radius = Some (6378222972263465 # 35184372088832)%Q /\
  Qfloor (PyFloat.to_Q radius) = 181.
Proof. split; vm_compute; reflexivity. Qed.

(** ** Exit statuses *)

Lemma create_macos_icon_outcome {K : PixelKernels} inp outp w :
  fst (create_macos_icon inp outp w) = Return tt \/
  fst (create_macos_icon inp outp w) = Raise (SystemExit 1).
Proof.
  unfold create_macos_icon, try_except.
  destruct (icon_body inp outp w) as [[[]|e] w'] eqn:Hb; [left; reflexivity |].
  rewrite (icon_body_ordinary _ _ _ _ _ Hb). right. reflexivity.
Qed.

(** X2. No exception of an imaging call leaves the script.  Whatever the
    paths and the files, [create_macos_icon] returns or leaves through
    its own [sys.exit(1)], and so does the [__main__] block whatever
    [sys.argv] is: what the interpreter gets to see is the end of the
    script or [SystemExit(1)], never an [Exception].  (Printing is taken
    to succeed: a standard output that cannot be written is outside the
    model.) *)
Theorem no_exception_escapes {K : PixelKernels}
    (inp outp : string) (argv : list string) (w : World) :
  (fst (create_macos_icon inp outp w) = Return tt \/
   fst (create_macos_icon inp outp w) = Raise (SystemExit 1)) /\
  (fst (main argv w) = Return tt \/ fst (main argv w) = Raise (SystemExit 1)).
Proof.
  split; [apply create_macos_icon_outcome |].
  unfold main. destruct (Z.of_nat (List.length argv) <? 3).
  - right. reflexivity.
  - apply create_macos_icon_outcome.
Qed.

(** Without the handler the same input would end the script in an
    exception: the body of the [try] raises one for a missing file. *)
Lemma try_body_raises_without_handler :
  fst (icon_body (K := demo_kernels) "missing.png" "icon.png" demo_world)
    = Raise (Error FileNotFoundError "[Errno 2] No such file or directory: 'missing.png'").
Proof. reflexivity. Qed.

(** Status 0 comes with the success line as the last line printed. *)
Lemma success_prints_created_line {K : PixelKernels} prog inp outp rest w :
  fst (run (prog :: inp :: outp :: rest) w) = 0 ->
  stdout (snd (run (prog :: inp :: outp :: rest) w))
    = (stdout w ++ [("Created macOS-compliant icon at " ++ outp)%string])%list.
Proof.
  intros Hok. apply run_success in Hok as (canvas & _ & _ & _ & ->). reflexivity.
Qed.

(** ** What a failing save can leave behind *)

(** The save itself is not atomic: when the disk gives out during the
    write, a file that was already at the output path is left broken. *)
Lemma failed_save_breaks_existing_file (canvas : Image) (fp : string) (w : World) :
  is_Some (fs w !! fp) -> disk w fp = FailsMidWrite ->
  fs (snd (Image_save canvas fp (Some "PNG") w)) !! fp = Some Garbage.
Proof.
  intros [old Hold] Hd. unfold Image_save. cbv zeta.
  change (String.eqb "PNG" "") with false. cbv iota.
  change (SAVE (upper "PNG")) with (Some PNG). cbv iota.
  rewrite Hd, Hold. cbn [snd fs set_fs log_io]. apply files_lookup_insert_eq.
Qed.

(** * Further properties of the script *)

(** ** Which files a run touches *)

Lemma Image_save_frame im fp format w p :
  resolve (fs w) p <> resolve (fs w) fp ->
  fs (snd (Image_save im fp format w)) !! p = fs w !! p.
Proof.
  intros Hne. unfold Image_save. cbv zeta.
  repeat case_match; cbn [snd fs set_fs log_io];
    rewrite ?files_lookup_insert_ne by exact Hne; reflexivity.
Qed.

Lemma icon_body_frame {K : PixelKernels} inp outp w p :
  resolve (fs w) p <> resolve (fs w) outp ->
  fs (snd (icon_body inp outp w)) !! p = fs w !! p.
Proof.
  intros Hne. unfold icon_body, bind.
  destruct (build_canvas inp w) as [[canvas|e] w1] eqn:Hc;
    pose proof (build_canvas_world _ _ _ _ Hc) as [-> _]; [| reflexivity].
  pose proof (Image_save_frame canvas outp (Some "PNG") (log_io (OpenRead inp) w) p Hne)
    as Hs.
  destruct (Image_save canvas outp (Some "PNG") (log_io (OpenRead inp) w))
    as [[[]|e] w2]; simpl in *; exact Hs.
Qed.

Lemma Image_save_resolve im fp format w :
  resolve (fs (snd (Image_save im fp format w))) = resolve (fs w).
Proof.
  unfold Image_save. cbv zeta. repeat case_match; reflexivity.
Qed.

(** X4. A run changes no file but the one its second argument names:
    every path that names another file than the output path does (be it
    spelled differently or not) holds after the run what it held before,
    and names the same file as before, whatever the arguments and however
    the run ends. *)
Theorem only_the_output_file_changes {K : PixelKernels}
    (argv : list string) (w : World) (p : string) :
  resolve (fs w) p <> resolve (fs w) (nth 2 argv "") ->
  fs (snd (run argv w)) !! p = fs w !! p /\
  resolve (fs (snd (run argv w))) = resolve (fs w).
Proof.
  intros Hne.
  destruct argv as [|prog [|inp [|outp rest]]]; try (split; reflexivity).
  rewrite run_with_paths. cbn [nth] in Hne.
  pose proof (icon_body_frame inp outp w p Hne) as Hf.
  assert (resolve (fs (snd (icon_body inp outp w))) = resolve (fs w)) as Hr.
  { unfold icon_body, bind.
    destruct (build_canvas inp w) as [[canvas|e] w1] eqn:Hc;
      pose proof (build_canvas_world _ _ _ _ Hc) as [-> _]; [| reflexivity].
    pose proof (Image_save_resolve canvas outp (Some "PNG") (log_io (OpenRead inp) w)) as Hs.
    destruct (Image_save canvas outp (Some "PNG") (log_io (OpenRead inp) w))
      as [[[]|e] w2]; simpl in *; exact Hs. }
  destruct (icon_body inp outp w) as [[[]|e] w']; simpl in *; auto.
Qed.

Lemma only_the_output_file_changes_witness :
  fs (snd (run (K := demo_kernels) ["process_icon.py"; "red.jpg"; "icon.png"] demo_world))
    !! "./red.jpg" = fs demo_world !! "./red.jpg" /\
  resolve (fs (snd (run (K := demo_kernels) ["process_icon.py"; "red.jpg"; "icon.png"]
                      demo_world)))
    = resolve (fs demo_world).
Proof.
  apply (only_the_output_file_changes (K := demo_kernels)). discriminate.
Defined.

(** A path that differs from the output path as a string can still name
    the output file, and then the run does replace what it holds: with
    "./red.jpg" as the output, "red.jpg" holds the icon afterwards. *)
Lemma other_spelling_of_the_output_is_overwritten :
  resolve (fs demo_world) "red.jpg" = resolve (fs demo_world) "./red.jpg" /\
  fs demo_world !! "red.jpg" = Some red_jpeg /\
  exists canvas,
    fs (snd (run (K := demo_kernels) ["process_icon.py"; "red.jpg"; "./red.jpg"] demo_world))
      !! "red.jpg" = Some (Encoded PNG canvas).
Proof.
  split; [reflexivity |]. split; [reflexivity |].
  destruct (run_success (K := demo_kernels) "process_icon.py" "red.jpg" "./red.jpg" []
              demo_world) as (canvas & _ & _ & _ & ->); [vm_compute; reflexivity |].
  exists canvas. reflexivity.
Qed.

(** X5. A run with both paths opens the input for reading, once, and
    then at most one file for writing, the output; when the status is 0 it
    did open the output. *)
Theorem files_opened_by_a_run {K : PixelKernels}
    (prog inp outp : string) (rest : list string) (w : World) :
  (io_log (snd (run (prog :: inp :: outp :: rest) w)) = (io_log w ++ [OpenRead inp])%list /\
   fst (run (prog :: inp :: outp :: rest) w) = 1) \/
  io_log (snd (run (prog :: inp :: outp :: rest) w))
    = (io_log w ++ [OpenRead inp; OpenWrite outp])%list.
Proof.
  rewrite run_with_paths.
  pose proof (icon_body_log inp outp w) as Hlog.
  destruct (icon_body inp outp w) as [[[]|e] w'] eqn:Hb; simpl in *.
  - right. apply icon_body_Return in Hb as (canvas & _ & _ & _ & ->).
    simpl. by rewrite <- app_assoc.
  - destruct Hlog as [Hl | [Hl _]]; auto.
Qed.

(** ** What a run prints *)

(** X6. Every run prints exactly one line, and that line is the success
    message naming the output path exactly when the exit status is 0. *)
Theorem every_run_prints_one_line {K : PixelKernels} (argv : list string) (w : World) :
  exists line,
    stdout (snd (run argv w)) = (stdout w ++ [line])%list /\
    (fst (run argv w) = 0 <->
     line = ("Created macOS-compliant icon at " ++ nth 2 argv "")%string).
Proof.
  destruct argv as [|prog [|inp [|outp rest]]];
    try (exists usage; split; [reflexivity | split; discriminate]).
  rewrite run_with_paths. cbn [nth].
  destruct (icon_body inp outp w) as [[[]|e] w'] eqn:Hb.
  - apply icon_body_Return in Hb as (canvas & _ & _ & _ & ->).
    eexists. split; [reflexivity |]. split; reflexivity.
  - exists ("Error processing image: " ++ str e)%string.
    assert (stdout w' = stdout w) as Hout.
    { unfold icon_body in Hb.
      apply bind_Raise in Hb as [Hb | (canvas & w1 & Hc & Hb)].
      - apply build_canvas_world in Hb as [-> _]. reflexivity.
      - apply build_canvas_world in Hc as [-> _].
        apply bind_Raise in Hb as [Hb | ([] & w2 & _ & Hb)]; [| discriminate].
        unfold Image_save in Hb. cbv zeta in Hb.
        repeat case_match; simplify_eq; reflexivity. }
    simpl. rewrite Hout. split; [reflexivity |]. split; discriminate.
Qed.

(** ** Arguments *)

(** X3. The script reads [sys.argv[1]] and [sys.argv[2]] only: the
    program name and any argument after the second make no difference to
    the exit status or to the world the run leaves. *)
Theorem program_name_and_extra_arguments_are_ignored {K : PixelKernels}
    (prog prog' inp outp : string) (rest : list string) (w : World) :
  run (prog :: inp :: outp :: rest) w = run [prog'; inp; outp] w.
Proof. rewrite !run_with_paths. reflexivity. Qed.

(** ** Runs that succeed and runs that fail *)

(** X1. Every decodable image of positive width and height that Pillow's
    pixel limit lets through (at most 2 * MAX_IMAGE_PIXELS = 178956970
    pixels), of any mode and aspect ratio, is converted when the disk takes
    the output: the status is 0, the success line is printed, and the
    output path holds a PNG of a 1024 x 1024 RGBA canvas. *)
Theorem valid_input_is_converted {K : PixelKernels}
    (prog inp outp : string) (rest : list string) (fmt : Format) (img : Image) (w : World) :
  fs w !! inp = Some (Encoded fmt img) ->
  0 < width img -> 0 < height img ->
  width img * height img <= 2 * MAX_IMAGE_PIXELS ->
  disk w outp = NoFault ->
  exists canvas,
    run (prog :: inp :: outp :: rest) w =
      (0, add_line ("Created macOS-compliant icon at " ++ outp)
            (set_fs (<[outp := Encoded PNG canvas]> (fs w))
               (log_io (OpenWrite outp) (log_io (OpenRead inp) w)))) /\
    fs (snd (run (prog :: inp :: outp :: rest) w)) !! outp = Some (Encoded PNG canvas) /\
    size canvas = (1024, 1024) /\ mode canvas = ModeRGBA.
Proof.
  intros Hfile HW HH Hpx Hdisk.
  pose proof (valid_input_succeeds prog inp outp rest fmt img w Hfile HW HH Hpx Hdisk) as Hok.
  pose proof Hok as Hrun.
  apply run_success in Hrun as (canvas & Hc & _ & _ & Hw).
  apply build_canvas_shape in Hc as (Hm & Hcw & Hch).
  exists canvas. split; [| split].
  - rewrite <- Hw, <- Hok. apply surjective_pairing.
  - rewrite Hw. cbn [fs add_line set_fs]. apply files_lookup_insert_eq.
  - unfold size. rewrite Hcw, Hch. auto.
Qed.

Lemma valid_input_is_converted_witness :
  exists canvas,
    run (K := demo_kernels) ["process_icon.py"; "blue.png"; "icon.png"] gallery_world =
      (0, add_line ("Created macOS-compliant icon at " ++ "icon.png")
            (set_fs (<["icon.png" := Encoded PNG canvas]> (fs gallery_world))
               (log_io (OpenWrite "icon.png")
                  (log_io (OpenRead "blue.png") gallery_world)))) /\
    fs (snd (run (K := demo_kernels) ["process_icon.py"; "blue.png"; "icon.png"]
               gallery_world)) !! "icon.png" = Some (Encoded PNG canvas) /\
    size canvas = (1024, 1024) /\ mode canvas = ModeRGBA.
Proof.
  eapply (valid_input_is_converted (K := demo_kernels));
    [reflexivity | | | | reflexivity]; vm_compute; congruence.
Defined.

(** An image beyond the pixel limit is refused before anything is drawn:
    the run ends with status 1 and an error line, and writes nothing. *)
Lemma oversized_input_is_refused {K : PixelKernels} prog inp outp rest fmt img w :
  fs w !! inp = Some (Encoded fmt img) ->
  2 * MAX_IMAGE_PIXELS < Z.max 1 (width img) * Z.max 1 (height img) ->
  exists msg,
    run (prog :: inp :: outp :: rest) w =
      (1, add_line ("Error processing image: " ++ msg) (log_io (OpenRead inp) w)).
Proof.
  intros Hfile Hbig. rewrite run_with_paths.
  unfold icon_body, bind at 1. unfold build_canvas, bind at 1. unfold Image_open.
  rewrite Hfile. unfold decompression_bomb_check, size. cbn [fst snd].
  apply Z.ltb_lt in Hbig. rewrite Hbig. eexists. reflexivity.
Qed.

(** A directory given as the input is reported like any other failure. *)
Lemma directory_input_is_reported :
  run (K := demo_kernels) ["process_icon.py"; "photos"; "icon.png"] demo_world =
    (1, add_line "Error processing image: [Errno 21] Is a directory: 'photos'"
          (log_io (OpenRead "photos") demo_world)).
Proof. reflexivity. Qed.

(** Messages quote a path the way [repr] does. *)
Lemma repr_examples :
  repr "missing.png" = "'missing.png'" /\
  repr "it's.png" = String double_quote ("it's.png" ++ String double_quote EmptyString) /\
  repr (String backslash "a") = String apostrophe
         (String backslash (String backslash ("a" ++ String apostrophe EmptyString))).
Proof. repeat split; reflexivity. Qed.

(** X7. When the input path names no file, or a file that is not an
    image, the run ends with status 1, prints one line that starts with
    "Error processing image: ", and leaves every file as it was. *)
Theorem unreadable_input_is_reported {K : PixelKernels}
    (prog inp outp : string) (rest : list string) (w : World) :
  fs w !! inp = None \/ fs w !! inp = Some Garbage ->
  exists msg,
    run (prog :: inp :: outp :: rest) w =
      (1, add_line ("Error processing image: " ++ msg) (log_io (OpenRead inp) w)).
Proof.
  intros Hfile. rewrite run_with_paths.
  unfold icon_body, bind at 1. unfold build_canvas, bind at 1. unfold Image_open.
  destruct Hfile as [-> | ->]; eexists; reflexivity.
Qed.

Lemma unreadable_input_is_reported_witness :
  exists msg,
    run (K := demo_kernels) ["process_icon.py"; "notes.txt"; "icon.png"] demo_world =
      (1, add_line ("Error processing image: " ++ msg)
            (log_io (OpenRead "notes.txt") demo_world)).
Proof.
  apply (unreadable_input_is_reported (K := demo_kernels)). right. reflexivity.
Defined.

(** X8. When the output path cannot be opened for writing, the run ends
    with status 1 and the file system is exactly as before, whether or not
    the input could be processed. *)
Theorem unwritable_output_is_reported {K : PixelKernels}
    (prog inp outp : string) (rest : list string) (w : World) :
  disk w outp = CannotOpen ->
  fst (run (prog :: inp :: outp :: rest) w) = 1 /\
  fs (snd (run (prog :: inp :: outp :: rest) w)) = fs w.
Proof.
  intros Hdisk. rewrite run_with_paths. unfold icon_body, bind.
  destruct (build_canvas inp w) as [[canvas|e] w1] eqn:Hc;
    pose proof (build_canvas_world _ _ _ _ Hc) as [-> _]; [| auto].
  unfold Image_save. cbv zeta.
  change (String.eqb "PNG" "") with false. cbv iota.
  change (SAVE (upper "PNG")) with (Some PNG). cbv iota.
  change (disk (log_io (OpenRead inp) w) outp) with (disk w outp).
  rewrite Hdisk. auto.
Qed.

Lemma unwritable_output_is_reported_witness :
  fst (run (K := demo_kernels) ["process_icon.py"; "red.jpg"; "/readonly/icon.png"]
         demo_world) = 1 /\
  fs (snd (run (K := demo_kernels) ["process_icon.py"; "red.jpg"; "/readonly/icon.png"]
             demo_world)) = fs demo_world.
Proof.
  apply (unwritable_output_is_reported (K := demo_kernels)). reflexivity.
Defined.

(** X10. The icon a run wrote is itself a valid input: a second run that
    takes the first run's output as its input succeeds, when the disk takes
    its output. *)
Theorem output_is_a_valid_input {K : PixelKernels}
    (prog inp outp outp' : string) (rest rest' : list string) (w : World) :
  fst (run (prog :: inp :: outp :: rest) w) = 0 ->
  disk w outp' = NoFault ->
  fst (run (prog :: outp :: outp' :: rest') (snd (run (prog :: inp :: outp :: rest) w))) = 0.
Proof.
  intros Hok Hdisk.
  apply run_success in Hok as (canvas & Hc & _ & _ & Hw).
  apply build_canvas_shape in Hc as (_ & Hcw & Hch).
  apply (valid_input_succeeds prog outp outp' rest' PNG canvas).
  - rewrite Hw. cbn [fs add_line set_fs]. apply files_lookup_insert_eq.
  - rewrite Hcw. reflexivity.
  - rewrite Hch. reflexivity.
  - rewrite Hcw, Hch. vm_compute. congruence.
  - rewrite Hw. exact Hdisk.
Qed.

Lemma output_is_a_valid_input_witness :
  fst (run (K := demo_kernels) ["process_icon.py"; "icon.png"; "icon2.png"]
         (snd (run (K := demo_kernels) ["process_icon.py"; "red.jpg"; "icon.png"]
                 demo_world))) = 0.
Proof.
  apply (output_is_a_valid_input (K := demo_kernels)); vm_compute; reflexivity.
Defined.

(** ** How the layers compose *)

Lemma build_canvas_inv {K : PixelKernels} inp w canvas w' :
  build_canvas inp w = (Return canvas, w') ->
  exists img mask content shadow,
    make_mask = Return mask /\ make_content img mask = Return content /\
    make_shadow = Return shadow /\ composite shadow content = Return canvas.
Proof.
  unfold build_canvas. intros H.
  apply bind_Return in H as (img0 & w1 & _ & H).
  apply bind_Return in H as (img & w2 & _ & H).
  apply bind_Return in H as (mask & w3 & Hm & H).
  apply bind_Return in H as (content & w4 & Hc & H).
  apply bind_Return in H as (shadow & w5 & Hs & H).
  apply lift_inv in Hm as [Hm _]. apply lift_inv in Hc as [Hc _].
  apply lift_inv in Hs as [Hs _]. apply lift_inv in H as [H _].
  exists img, mask, content, shadow. auto.
Qed.

(** The content layer has the size of the mask, whatever the source. *)
Lemma make_content_shape {K : PixelKernels} img mask content :
  make_mask = Return mask -> make_content img mask = Return content ->
  width content = SHAPE_SIZE /\ height content = SHAPE_SIZE.
Proof.
  intros Hm Hc.
  destruct make_mask_returns as (mask' & Hm' & _ & Hw & Hh).
  rewrite Hm in Hm'. injection Hm' as <-.
  unfold make_content in Hc. apply obind_Return in Hc as (resized & _ & Hp).
  unfold Image_putalpha in Hp.
  destruct (mode mask); try discriminate.
  destruct ((width mask =? width resized) && (height mask =? height resized)) eqn:Hsz;
    [| discriminate].
  apply andb_true_iff in Hsz as [Hsw Hsh]. apply Z.eqb_eq in Hsw, Hsh.
  injection Hp as <-. simpl. split; congruence.
Qed.

(** The canvas is the content over the blurred shadow over transparency
    inside the content square, and the blurred shadow over transparency
    elsewhere. *)
Lemma composite_layers {K : PixelKernels} shadow content canvas :
  width content = SHAPE_SIZE -> height content = SHAPE_SIZE ->
  composite shadow content = Return canvas ->
  exists backdrop,
    Image_alpha_composite
      (mkImage ModeRGBA CANVAS_SIZE CANVAS_SIZE (fun _ _ => Rgba 0 0 0 0)) shadow (0, 0)
      = Return backdrop /\
    forall x y,
      px canvas x y =
        if in_content_square x y
        then over (px backdrop x y) (px content (x - PADDING) (y - PADDING))
        else px backdrop x y.
Proof.
  intros Hw Hh. unfold composite.
  change (Image_new "RGBA" (CANVAS_SIZE, CANVAS_SIZE) (CTuple [0; 0; 0; 0]))
    with (Return (mkImage ModeRGBA CANVAS_SIZE CANVAS_SIZE (fun _ _ => Rgba 0 0 0 0))).
  cbn [obind]. intros H.
  apply obind_Return in H as (backdrop & Hb & H).
  exists backdrop. split; [exact Hb |].
  unfold Image_alpha_composite in H.
  destruct (mode backdrop); try discriminate.
  destruct (mode content); try discriminate.
  injection H as <-. intros x y. cbn [px]. rewrite Hw, Hh. reflexivity.
Qed.

(** X11. Outside the content square the canvas does not depend on the
    input image: any two canvases the script builds agree on every pixel
    of the margin. *)
Theorem canvas_margin_is_input_independent {K : PixelKernels}
    (inp1 inp2 : string) (w1 w2 v1 v2 : World) (c1 c2 : Image) :
  build_canvas inp1 w1 = (Return c1, v1) ->
  build_canvas inp2 w2 = (Return c2, v2) ->
  forall x y : Z,
    ~ (PADDING <= x < PADDING + SHAPE_SIZE /\ PADDING <= y < PADDING + SHAPE_SIZE) ->
    px c1 x y = px c2 x y.
Proof.
  intros H1 H2 x y Hout.
  apply build_canvas_inv in H1 as (img1 & mask1 & content1 & shadow1 & Hm1 & Hc1 & Hs1 & Hk1).
  apply build_canvas_inv in H2 as (img2 & mask2 & content2 & shadow2 & Hm2 & Hc2 & Hs2 & Hk2).
  rewrite Hs1 in Hs2. injection Hs2 as <-.
  destruct (make_content_shape _ _ _ Hm1 Hc1) as [Hw1 Hh1].
  destruct (make_content_shape _ _ _ Hm2 Hc2) as [Hw2 Hh2].
  apply (composite_layers _ _ _ Hw1 Hh1) in Hk1 as (b1 & Hb1 & Hpx1).
  apply (composite_layers _ _ _ Hw2 Hh2) in Hk2 as (b2 & Hb2 & Hpx2).
  rewrite Hb1 in Hb2. injection Hb2 as <-.
  rewrite Hpx1, Hpx2.
  assert (in_content_square x y = false) as ->; [| reflexivity].
  unfold in_content_square.
  destruct (PADDING <=? x) eqn:E1; [| reflexivity].
  destruct (x <? PADDING + SHAPE_SIZE) eqn:E2; [| reflexivity].
  destruct (PADDING <=? y) eqn:E3; [| reflexivity].
  destruct (y <? PADDING + SHAPE_SIZE) eqn:E4; [| reflexivity].
  exfalso. apply Hout. lia.
Qed.

Lemma canvas_margin_is_input_independent_witness :
  exists c1 c2 v1 v2,
    build_canvas (K := demo_kernels) "red.jpg" gallery_world = (Return c1, v1) /\
    build_canvas (K := demo_kernels) "blue.png" gallery_world = (Return c2, v2) /\
    px c1 512 930 = px c2 512 930.
Proof.
  destruct (build_canvas_returns (K := demo_kernels) "red.jpg" JPEG
              (mkImage ModeRGB 500 300 (fun _ _ => Rgb 255 0 0)) gallery_world)
    as (c1 & H1); [reflexivity | simpl; lia | simpl; lia | vm_compute; congruence |].
  destruct (build_canvas_returns (K := demo_kernels) "blue.png" PNG
              (mkImage ModeRGBA 300 500 (fun x _ => Rgba 0 0 255 (x mod 256)))
              gallery_world)
    as (c2 & H2); [reflexivity | simpl; lia | simpl; lia | vm_compute; congruence |].
  exists c1, c2. do 2 eexists.
  split; [exact H1 |]. split; [exact H2 |].
  apply (canvas_margin_is_input_independent (K := demo_kernels) _ _ _ _ _ _ _ _ H1 H2).
  change PADDING with 100. change SHAPE_SIZE with 824. lia.
Defined.


(** * The shapes the script draws *)

(** ** Drawing with one ink *)

Lemma paint_px_cases im region ink x y :
  px (paint im region ink) x y = px im x y \/ px (paint im region ink) x y = ink.
Proof. unfold paint. cbn [px]. destruct (_ && _); auto. Qed.

Lemma paint_keeps_or_inks im0 im region ink x y :
  (px im x y = px im0 x y \/ px im x y = ink) ->
  px (paint im region ink) x y = px im0 x y \/ px (paint im region ink) x y = ink.
Proof.
  intros H. destruct (paint_px_cases im region ink x y) as [-> | ->]; auto.
Qed.

(** Whatever its arguments, [rounded_rectangle] leaves each pixel as it
    was or gives it the fill colour: no third value appears. *)
Lemma rounded_rectangle_adds_only_ink im xy radius fill im' :
  ImageDraw_rounded_rectangle im xy radius fill = Return im' ->
  exists ink, getink (mode im) fill = Return ink /\
    forall x y, px im' x y = px im x y \/ px im' x y = ink.
Proof.
  unfold ImageDraw_rounded_rectangle. destruct xy as [[x0 y0] [x1 y1]].
  destruct (x1 <? x0); [discriminate |].
  destruct (y1 <? y0); [discriminate |].
  cbv zeta.
  destruct (_ && _).
  { unfold ImageDraw_ellipse. intros H. apply obind_Return in H as (ink & Hink & [= <-]).
    exists ink. split; [exact Hink |]. intros. apply paint_px_cases. }
  destruct (Qeq_bool _ _).
  { unfold ImageDraw_rectangle. intros H. apply obind_Return in H as (ink & Hink & [= <-]).
    exists ink. split; [exact Hink |]. intros. apply paint_px_cases. }
  intros H. apply obind_Return in H as (ink & Hink & [= <-]).
  exists ink. split; [exact Hink |]. intros x y.
  repeat match goal with
         | |- context [if ?b then _ else _] => destruct b
         end;
    repeat apply paint_keeps_or_inks; auto.
Qed.

Lemma Image_new_constant m sz c im :
  Image_new m sz c = Return im ->
  exists md ink, mode_of_string m = Some md /\ getink md c = Return ink /\
                 mode im = md /\ forall x y, px im x y = ink.
Proof.
  unfold Image_new. destruct sz as [w h].
  destruct ((w <? 0) || (h <? 0)); [discriminate |].
  destruct (mode_of_string m) as [md|]; [| discriminate].
  intros H. apply obind_Return in H as (ink & Hink & [= <-]).
  exists md, ink. auto.
Qed.

Lemma mask_is_two_valued mask :
  make_mask = Return mask -> forall x y, px mask x y = Lum 0 \/ px mask x y = Lum 255.
Proof.
  unfold make_mask. intros H. apply obind_Return in H as (blank & Hnew & Hdraw).
  apply Image_new_constant in Hnew as (md & ink0 & Hmd & Hink0 & Hmode & Hpx).
  injection Hmd as <-. injection Hink0 as <-.
  apply rounded_rectangle_adds_only_ink in Hdraw as (ink & Hink & Hdraw).
  rewrite Hmode in Hink. injection Hink as <-.
  intros x y. destruct (Hdraw x y) as [-> | ->]; [left; apply Hpx | right; reflexivity].
Qed.

Lemma putalpha_alpha self a out x y :
  Image_putalpha self a = Return out -> alpha (px out x y) = gray (px a x y).
Proof.
  unfold Image_putalpha. destruct (mode a); try discriminate.
  destruct (_ && _); [| discriminate]. intros [= <-]. cbn [px].
  destruct (px self x y); reflexivity.
Qed.

Lemma make_content_returns {K : PixelKernels} img mask :
  0 < width img -> 0 < height img -> make_mask = Return mask ->
  exists content, make_content img mask = Return content.
Proof.
  intros HW HH Hm.
  destruct make_mask_returns as (mask' & Hm' & Hmm & Hmw & Hmh).
  rewrite Hm in Hm'. injection Hm' as <-.
  destruct (fit_content_returns img HW HH) as (resized & Hfit & _ & Hrw & Hrh).
  unfold make_content. rewrite Hfit. cbn [obind].
  unfold Image_putalpha. rewrite Hmm, Hmw, Hmh, Hrw, Hrh, !Z.eqb_refl. cbn [andb].
  eauto.
Qed.

(** X12. The content layer has no partial transparency: whatever the
    source image and its own alpha channel, every pixel of the content
    layer has alpha 0 or alpha 255. *)
Theorem content_is_opaque_or_clear {K : PixelKernels} (img mask content : Image) :
  make_mask = Return mask -> make_content img mask = Return content ->
  forall x y : Z, alpha (px content x y) = 0 \/ alpha (px content x y) = 255.
Proof.
  intros Hm Hc x y.
  unfold make_content in Hc. apply obind_Return in Hc as (resized & _ & Hp).
  rewrite (putalpha_alpha _ _ _ x y Hp).
  destruct (mask_is_two_valued mask Hm x y) as [-> | ->]; auto.
Qed.

Lemma content_is_opaque_or_clear_witness :
  exists mask content,
    make_mask = Return mask /\
    make_content (K := demo_kernels) red_source mask = Return content /\
    (alpha (px content 3 7) = 0 \/ alpha (px content 3 7) = 255).
Proof.
  destruct make_mask_returns as (mask & Hm & _).
  destruct (make_content_returns (K := demo_kernels) red_source mask) as (content & Hc);
    [simpl; lia | simpl; lia | exact Hm |].
  exists mask, content. split; [exact Hm |]. split; [exact Hc |].
  exact (content_is_opaque_or_clear (K := demo_kernels) red_source mask content Hm Hc 3 7).
Defined.

(** ** The region a rounded rectangle covers *)

Lemma inside_true im x y :
  0 <= x < width im -> 0 <= y < height im -> inside im x y = true.
Proof.
  intros Hx Hy. unfold inside.
  repeat (apply andb_true_intro; split);
    first [apply Z.leb_le; lia | apply Z.ltb_lt; lia].
Qed.

Lemma in_rect_true x0 y0 x1 y1 x y :
  x0 <= x <= x1 -> y0 <= y <= y1 -> in_rect (x0, y0, x1, y1) x y = true.
Proof.
  intros Hx Hy. unfold in_rect.
  repeat (apply andb_true_intro; split); apply Z.leb_le; lia.
Qed.

Opaque Qfloor.

(** In the general case (corners that do not meet, a middle band of
    positive width), the seven shapes [rounded_rectangle] paints one after
    the other amount to painting their union once. *)
Lemma rounded_rectangle_px im x0 y0 x1 y1 radius fill im' ink :
  ImageDraw_rounded_rectangle im ((x0, y0), (x1, y1)) radius fill = Return im' ->
  getink (mode im) fill = Return ink ->
  x0 <= x1 -> y0 <= y1 ->
  Qle_bool (inject_Z (x1 - x0 - 1)) (radius * 2) = false ->
  Qle_bool (inject_Z (y1 - y0 - 1)) (radius * 2) = false ->
  Qeq_bool (radius * 2) 0 = false ->
  x0 + Qfloor (radius * 2 / 2) + 1 < x1 - Qfloor (radius * 2 / 2) - 1 ->
  forall x y,
    px im' x y =
      if rounded_region x0 y0 x1 y1 radius x y && inside im x y then ink else px im x y.
Proof.
  intros Hdraw Hink Hx01 Hy01 Hfx Hfy Hd0 Hmid x y.
  unfold ImageDraw_rounded_rectangle in Hdraw.
  assert ((x1 <? x0) = false) as E1 by (apply Z.ltb_ge; lia).
  assert ((y1 <? y0) = false) as E2 by (apply Z.ltb_ge; lia).
  rewrite E1, E2 in Hdraw. cbv zeta in Hdraw.
  rewrite Hfx in Hdraw. cbv iota in Hdraw.
  rewrite Hfy in Hdraw. cbv iota in Hdraw. cbn [andb negb] in Hdraw.
  rewrite Hd0 in Hdraw. rewrite Hink in Hdraw. cbn [obind] in Hdraw.
  apply Z.ltb_lt in Hmid. rewrite Hmid in Hdraw.
  injection Hdraw as <-.
  unfold rounded_region. cbv zeta.
  cbn [fold_left]. unfold paint, inside. cbn [px width height].
  change ((0 <=? x) && (x <? width im) && (0 <=? y) && (y <? height im))
    with (inside im x y).
  destruct (inside im x y); rewrite ?andb_true_r, ?andb_false_r; [| reflexivity].
  repeat match goal with
         | |- context [in_pieslice ?b ?s ?e x y] =>
             destruct (in_pieslice b s e x y)
         | |- context [in_rect ?b x y] => destruct (in_rect b x y)
         end; reflexivity.
Qed.

Transparent Qfloor.

Lemma radius_facts :
  Qle_bool (inject_Z (824 - 1)) (PyFloat.to_Q radius * 2) = false /\
  Qeq_bool (PyFloat.to_Q radius * 2) 0 = false /\
  Qfloor (PyFloat.to_Q radius * 2 / 2) = 181.
Proof. repeat split; vm_compute; reflexivity. Qed.

(** The mask, pixel by pixel. *)
Lemma mask_px mask :
  make_mask = Return mask ->
  forall x y, 0 <= x < 824 -> 0 <= y < 824 ->
    px mask x y =
      if rounded_region 0 0 824 824 (PyFloat.to_Q radius) x y then Lum 255 else Lum 0.
Proof.
  intros Hm x y Hx Hy.
  destruct radius_facts as (Hfull & Hd0 & Hr).
  unfold make_mask in Hm. apply obind_Return in Hm as (blank & Hnew & Hdraw).
  pose proof (Image_new_shape _ _ _ _ Hnew) as (_ & Hw & Hh).
  apply Image_new_constant in Hnew as (md & ink0 & Hmd & Hink0 & Hmode & Hpx).
  injection Hmd as <-. injection Hink0 as <-. cbn [fst snd] in Hw, Hh.
  change SHAPE_SIZE with 824 in *.
  rewrite (rounded_rectangle_px blank 0 0 824 824 _ (CInt 255) mask (Lum 255) Hdraw).
  - rewrite inside_true by lia. rewrite andb_true_r, Hpx. reflexivity.
  - rewrite Hmode. reflexivity.
  - lia.
  - lia.
  - exact Hfull.
  - exact Hfull.
  - exact Hd0.
  - rewrite Hr. lia.
Qed.

Lemma draw_shadow_inv shadow :
  draw_shadow = Return shadow ->
  exists blank,
    Image_new "RGBA" (CANVAS_SIZE, CANVAS_SIZE) (CTuple [0; 0; 0; 0]) = Return blank /\
    ImageDraw_rounded_rectangle blank shadow_rect (PyFloat.to_Q radius)
      (CTuple [0; 0; 0; 160]) = Return shadow.
Proof.
  unfold draw_shadow. intros H.
  apply obind_Return in H as (sz & _ & H).
  apply obind_Return in H as (blank & Hnew & H). eauto.
Qed.

(** The shadow layer before the blur, pixel by pixel. *)
Lemma shadow_px shadow :
  draw_shadow = Return shadow ->
  forall x y, 0 <= x < 1024 -> 0 <= y < 1024 ->
    px shadow x y =
      if rounded_region 100 110 924 934 (PyFloat.to_Q radius) x y
      then Rgba 0 0 0 160 else Rgba 0 0 0 0.
Proof.
  intros Hs x y Hx Hy.
  destruct radius_facts as (Hfull & Hd0 & Hr).
  apply draw_shadow_inv in Hs as (blank & Hnew & Hdraw).
  pose proof (Image_new_shape _ _ _ _ Hnew) as (_ & Hw & Hh).
  apply Image_new_constant in Hnew as (md & ink0 & Hmd & Hink0 & Hmode & Hpx).
  injection Hmd as <-. injection Hink0 as <-. cbn [fst snd] in Hw, Hh.
  change CANVAS_SIZE with 1024 in *.
  change shadow_rect with ((100, 110), (924, 934)) in Hdraw.
  rewrite (rounded_rectangle_px blank 100 110 924 934 _ (CTuple [0; 0; 0; 160]) shadow
             (Rgba 0 0 0 160) Hdraw).
  - rewrite inside_true by lia. rewrite andb_true_r, Hpx. reflexivity.
  - rewrite Hmode. reflexivity.
  - lia.
  - lia.
  - exact Hfull.
  - exact Hfull.
  - exact Hd0.
  - rewrite Hr. lia.
Qed.

(** X13. Masking touches the corners only: for every source image, each
    pixel of the content layer that lies outside the four corner squares
    (columns 182..642 or rows 182..642) is fully opaque. *)
Theorem content_is_opaque_outside_corner_squares {K : PixelKernels}
    (img mask content : Image) :
  make_mask = Return mask -> make_content img mask = Return content ->
  forall x y : Z,
    0 <= x < SHAPE_SIZE -> 0 <= y < SHAPE_SIZE ->
    182 <= x <= 642 \/ 182 <= y <= 642 ->
    alpha (px content x y) = 255.
Proof.
  intros Hm Hc x y Hx Hy Hband. change SHAPE_SIZE with 824 in *.
  unfold make_content in Hc. apply obind_Return in Hc as (resized & _ & Hp).
  rewrite (putalpha_alpha _ _ _ x y Hp), (mask_px mask Hm x y Hx Hy).
  assert (rounded_region 0 0 824 824 (PyFloat.to_Q radius) x y = true) as ->;
    [| reflexivity].
  destruct radius_facts as (_ & _ & Hr).
  unfold rounded_region. cbv zeta. rewrite Hr.
  destruct (Z_le_gt_dec 643 x) as [Hright | Hnr];
    [destruct Hband as [Hb | Hb]; [lia |] |].
  { rewrite (in_rect_true (824 - 181) _ 824 _ x y) by lia. apply orb_true_r. }
  destruct (Z_le_gt_dec x 181) as [Hleft | Hnl];
    [destruct Hband as [Hb | Hb]; [lia |] |].
  { rewrite (in_rect_true 0 _ (0 + 181) _ x y) by lia.
    rewrite orb_true_r. reflexivity. }
  rewrite (in_rect_true (0 + 181 + 1) 0 (824 - 181 - 1) 824 x y) by lia.
  rewrite orb_true_r. reflexivity.
Qed.

Lemma content_is_opaque_outside_corner_squares_witness :
  exists mask content,
    make_mask = Return mask /\
    make_content (K := demo_kernels) red_source mask = Return content /\
    alpha (px content 0 400) = 255.
Proof.
  destruct make_mask_returns as (mask & Hm & _).
  destruct (make_content_returns (K := demo_kernels) red_source mask) as (content & Hc);
    [simpl; lia | simpl; lia | exact Hm |].
  exists mask, content. split; [exact Hm |]. split; [exact Hc |].
  apply (content_is_opaque_outside_corner_squares (K := demo_kernels)
           red_source mask content Hm Hc);
    change SHAPE_SIZE with 824; lia.
Defined.

(** ** The extent of the shadow *)

Lemma in_rect_inv x0 y0 x1 y1 x y :
  in_rect (x0, y0, x1, y1) x y = true ->
  Z.min x0 x1 <= x <= Z.max x0 x1 /\ Z.min y0 y1 <= y <= Z.max y0 y1.
Proof.
  unfold in_rect. intros H.
  apply andb_true_iff in H as [H H4]. apply andb_true_iff in H as [H H3].
  apply andb_true_iff in H as [H1 H2].
  apply Z.leb_le in H1, H2, H3, H4. lia.
Qed.

(** Nothing is painted outside the bounding box of an ellipse. *)
Lemma in_ellipse_inv x0 y0 x1 y1 x y :
  in_ellipse (x0, y0, x1, y1) x y = true -> x0 <= x <= x1 /\ y0 <= y <= y1.
Proof.
  unfold in_ellipse. cbv zeta. intros H.
  apply andb_true_iff in H as [H _].
  apply andb_true_iff in H as [H H4]. apply andb_true_iff in H as [H H3].
  apply andb_true_iff in H as [H1 H2].
  apply Z.leb_le in H1, H2, H3, H4. lia.
Qed.

Lemma in_pieslice_inv (box : Q * Q * Q * Q) start stop x y :
  in_pieslice box start stop x y = true ->
  PyFloat.trunc (fst (fst (fst box))) <= x <= PyFloat.trunc (snd (fst box)) /\
  PyFloat.trunc (snd (fst (fst box))) <= y <= PyFloat.trunc (snd box).
Proof.
  destruct box as [[[qx0 qy0] qx1] qy1]. unfold in_pieslice. cbv zeta. cbn [fst snd].
  intros H. apply andb_true_iff in H as [H _]. apply in_ellipse_inv in H. exact H.
Qed.

(** The shadow's region lies within the rectangle handed to
    [rounded_rectangle], both corners included. *)
Lemma shadow_region_in_rect x y :
  rounded_region 100 110 924 934 (PyFloat.to_Q radius) x y = true ->
  100 <= x <= 924 /\ 110 <= y <= 934.
Proof.
  unfold rounded_region. cbv zeta.
  assert (Qfloor (PyFloat.to_Q radius * 2 / 2) = 181) as -> by (vm_compute; reflexivity).
  intros H.
  repeat (apply orb_true_iff in H as [H | H]).
  - apply in_pieslice_inv in H. cbn [fst snd] in H.
    assert (PyFloat.trunc (inject_Z 100) = 100) as E1 by (vm_compute; reflexivity).
    assert (PyFloat.trunc (inject_Z 110) = 110) as E2 by (vm_compute; reflexivity).
    assert (PyFloat.trunc (inject_Z 100 + PyFloat.to_Q radius * 2) = 462) as E3
      by (vm_compute; reflexivity).
    assert (PyFloat.trunc (inject_Z 110 + PyFloat.to_Q radius * 2) = 472) as E4
      by (vm_compute; reflexivity).
    rewrite E1, E2, E3, E4 in H. lia.
  - apply in_pieslice_inv in H. cbn [fst snd] in H.
    assert (PyFloat.trunc (inject_Z 924 - PyFloat.to_Q radius * 2) = 561) as E1
      by (vm_compute; reflexivity).
    assert (PyFloat.trunc (inject_Z 110) = 110) as E2 by (vm_compute; reflexivity).
    assert (PyFloat.trunc (inject_Z 924) = 924) as E3 by (vm_compute; reflexivity).
    assert (PyFloat.trunc (inject_Z 110 + PyFloat.to_Q radius * 2) = 472) as E4
      by (vm_compute; reflexivity).
    rewrite E1, E2, E3, E4 in H. lia.
  - apply in_pieslice_inv in H. cbn [fst snd] in H.
    assert (PyFloat.trunc (inject_Z 924 - PyFloat.to_Q radius * 2) = 561) as E1
      by (vm_compute; reflexivity).
    assert (PyFloat.trunc (inject_Z 934 - PyFloat.to_Q radius * 2) = 571) as E2
      by (vm_compute; reflexivity).
    assert (PyFloat.trunc (inject_Z 924) = 924) as E3 by (vm_compute; reflexivity).
    assert (PyFloat.trunc (inject_Z 934) = 934) as E4 by (vm_compute; reflexivity).
    rewrite E1, E2, E3, E4 in H. lia.
  - apply in_pieslice_inv in H. cbn [fst snd] in H.
    assert (PyFloat.trunc (inject_Z 100) = 100) as E1 by (vm_compute; reflexivity).
    assert (PyFloat.trunc (inject_Z 934 - PyFloat.to_Q radius * 2) = 571) as E2
      by (vm_compute; reflexivity).
    assert (PyFloat.trunc (inject_Z 100 + PyFloat.to_Q radius * 2) = 462) as E3
      by (vm_compute; reflexivity).
    assert (PyFloat.trunc (inject_Z 934) = 934) as E4 by (vm_compute; reflexivity).
    rewrite E1, E2, E3, E4 in H. lia.
  - apply in_rect_inv in H. lia.
  - apply in_rect_inv in H. lia.
  - apply in_rect_inv in H. lia.
Qed.

(** The three rectangles of the shadow cover its straight bands. *)
Lemma shadow_region_bands x y :
  100 <= x <= 924 -> 110 <= y <= 934 ->
  282 <= x <= 742 \/ 292 <= y <= 752 ->
  rounded_region 100 110 924 934 (PyFloat.to_Q radius) x y = true.
Proof.
  intros Hx Hy Hband.
  destruct radius_facts as (_ & _ & Hr).
  unfold rounded_region. cbv zeta. rewrite Hr.
  destruct (Z_le_gt_dec 743 x) as [Hright | Hnr];
    [destruct Hband as [Hb | Hb]; [lia |] |].
  { rewrite (in_rect_true (924 - 181) _ 924 _ x y) by lia. apply orb_true_r. }
  destruct (Z_le_gt_dec x 281) as [Hleft | Hnl];
    [destruct Hband as [Hb | Hb]; [lia |] |].
  { rewrite (in_rect_true 100 _ (100 + 181) _ x y) by lia.
    rewrite orb_true_r. reflexivity. }
  rewrite (in_rect_true (100 + 181 + 1) 110 (924 - 181 - 1) 934 x y) by lia.
  rewrite orb_true_r. reflexivity.
Qed.

(** X14. Before the blur the shadow is as large as the rectangle handed
    to [rounded_rectangle], which spans the content square moved
    [shadow_offset_y] down and one pixel more each way: every pixel of the
    shadow layer is transparent or black with alpha 160; all of it is
    transparent outside columns PADDING .. PADDING + SHAPE_SIZE and rows
    PADDING + 10 .. PADDING + SHAPE_SIZE + 10; and the straight bands of
    that rectangle (its columns and rows 182 .. 642, between the corner
    squares) are black with alpha 160 from edge to edge.  Nothing is said
    of the pixels inside the four corner squares. *)
Theorem shadow_is_as_large_as_the_shape (shadow : Image) :
  draw_shadow = Return shadow ->
  forall x y : Z, 0 <= x < CANVAS_SIZE -> 0 <= y < CANVAS_SIZE ->
    (px shadow x y = Rgba 0 0 0 0 \/ px shadow x y = Rgba 0 0 0 160) /\
    (~ (PADDING <= x <= PADDING + SHAPE_SIZE /\
        PADDING + shadow_offset_y <= y <= PADDING + SHAPE_SIZE + shadow_offset_y) ->
     px shadow x y = Rgba 0 0 0 0) /\
    (PADDING <= x <= PADDING + SHAPE_SIZE ->
     PADDING + shadow_offset_y <= y <= PADDING + SHAPE_SIZE + shadow_offset_y ->
     PADDING + 182 <= x <= PADDING + 642 \/
     PADDING + shadow_offset_y + 182 <= y <= PADDING + shadow_offset_y + 642 ->
     px shadow x y = Rgba 0 0 0 160).
Proof.
  intros Hs x y Hx Hy.
  change CANVAS_SIZE with 1024 in *. change PADDING with 100.
  change SHAPE_SIZE with 824. change shadow_offset_y with 10.
  rewrite (shadow_px shadow Hs x y Hx Hy).
  split; [| split].
  - destruct (rounded_region _ _ _ _ _ x y); auto.
  - intros Hout.
    destruct (rounded_region 100 110 924 934 (PyFloat.to_Q radius) x y) eqn:Hreg;
      [| reflexivity].
    apply shadow_region_in_rect in Hreg. exfalso. apply Hout. lia.
  - intros Hbx Hby Hband.
    rewrite shadow_region_bands by lia. reflexivity.
Qed.

Lemma shadow_is_as_large_as_the_shape_witness :
  exists shadow,
    draw_shadow = Return shadow /\
    px shadow 924 500 = Rgba 0 0 0 160 /\
    px shadow 500 934 = Rgba 0 0 0 160 /\
    px shadow 925 500 = Rgba 0 0 0 0 /\
    px shadow 500 109 = Rgba 0 0 0 0.
Proof.
  destruct draw_shadow_returns as (shadow & Hs & _).
  exists shadow. split; [exact Hs |].
  pose proof (shadow_is_as_large_as_the_shape shadow Hs) as H.
  change CANVAS_SIZE with 1024 in H. change PADDING with 100 in H.
  change SHAPE_SIZE with 824 in H. change shadow_offset_y with 10 in H.
  split; [apply (H 924 500); lia |].
  split; [apply (H 500 934); lia |].
  split; [apply (H 925 500); lia |].
  apply (H 500 109); lia.
Defined.

(** ** Sources that need no cropping or no resampling *)

(** X15. A square source is not cropped: the box the fit resizes is the
    whole image. *)
Theorem square_source_is_not_cropped {K : PixelKernels} (img : Image) :
  0 < width img -> width img = height img ->
  exists l t r b : Q,
    fit_content img = Image_resize img (SHAPE_SIZE, SHAPE_SIZE) (l, t, r, b) /\
    (l == 0 /\ t == 0 /\ r == inject_Z (width img) /\ b == inject_Z (height img))%Q.
Proof.
  intros HW Heq.
  destruct (fit_box_spec (width img) (height img) SHAPE_SIZE)
    as (l & t & r & b & Hbox & Hsq & _ & _); [lia | lia | reflexivity |].
  exists l, t, r, b. split; [| exact (Hsq Heq)].
  unfold fit_content, ImageOps_fit. rewrite Hbox. reflexivity.
Qed.

Lemma square_source_is_not_cropped_witness :
  exists l t r b : Q,
    fit_content (K := demo_kernels) (mkImage ModeRGBA 300 300 (fun _ _ => Rgba 1 2 3 4))
      = Image_resize (K := demo_kernels)
          (mkImage ModeRGBA 300 300 (fun _ _ => Rgba 1 2 3 4))
          (SHAPE_SIZE, SHAPE_SIZE) (l, t, r, b) /\
    (l == 0 /\ t == 0 /\ r == inject_Z 300 /\ b == inject_Z 300)%Q.
Proof.
  apply (square_source_is_not_cropped (K := demo_kernels)
           (mkImage ModeRGBA 300 300 (fun _ _ => Rgba 1 2 3 4))); [simpl; lia | reflexivity].
Defined.

(** X16. A source that already measures SHAPE_SIZE x SHAPE_SIZE comes out
    of the fit as it went in, without resampling. *)
Theorem shape_sized_source_is_not_resampled {K : PixelKernels} (img : Image) :
  width img = SHAPE_SIZE -> height img = SHAPE_SIZE ->
  fit_content img = Return img.
Proof.
  intros HW HH.
  destruct (fit_box_spec (width img) (height img) SHAPE_SIZE)
    as (l & t & r & b & Hbox & Hsq & _ & _);
    [rewrite HW; reflexivity | rewrite HH; reflexivity | reflexivity |].
  destruct (Hsq ltac:(congruence)) as (Hl & Ht & Hr & Hb).
  unfold fit_content, ImageOps_fit. rewrite Hbox. cbn [obind].
  unfold Image_resize. cbn [fst snd]. unfold box_is_whole.
  apply Qeq_bool_iff in Hl, Ht, Hr, Hb.
  rewrite Hl, Ht, Hr, Hb, HW, HH, !Z.eqb_refl. reflexivity.
Qed.

Lemma shape_sized_source_is_not_resampled_witness :
  fit_content (K := demo_kernels) (mkImage ModeRGBA 824 824 (fun x y => Rgba x y 0 255))
    = Return (mkImage ModeRGBA 824 824 (fun x y => Rgba x y 0 255)).
Proof.
  apply (shape_sized_source_is_not_resampled (K := demo_kernels)
           (mkImage ModeRGBA 824 824 (fun x y => Rgba x y 0 255))); reflexivity.
Defined.
